(** * Topmodel_Homogenous (topmodel.py): a shallow embedding and its properties

    The module topmodel.py holds one class, [Topmodel_Homogenous], whose
    constructor derives the static topographic constants of a catchment and
    whose method [run_timestep] advances the single state variable [S], the
    catchment-average saturation deficit.

    Number model.  A float64 is a real number, or the value [NaN]; rounding,
    overflow and the sign of zero are left out.  IEEE infinities are not
    represented: where the program divides an array or a NumPy scalar by
    zero, takes the logarithm of zero, or takes the mean of an empty slice
    into a scalar, the computation ends with the outcome [NonFinite], which
    is not a Python exception but the mark that the real-valued model stops
    following the program there.  A Python exception is the outcome [Raise].

    Rounding.  Equalities below are those of the formulas: the program
    follows them up to rounding, so that a residual which is 0 here is of
    the order of the rounding error there.  An order between two computed
    quantities is stated in the form that rounding to nearest keeps: the
    weak order, between results of the same monotone operations; the strict
    orders and the signs of differences of rounded results that rounding and
    underflow break are not stated.  A hypothesis such as Qo > 0 or S >= 0
    that a proof over the reals leaves unused keeps the program inside this
    model: with Qo = 0 and an overflowing exponential the float64 baseflow
    is 0 * inf, not a number.  Where rounding decides (the strict decrease
    of the baseflow), [subsurfaceflow_f64] carries the float64 rounding
    itself.

    Arrays.  The three co-registered arrays pp['cmask'], pp['flowacc'] and
    pp['slope'] are held cell by cell, as rows of [cell]s; every derived array
    (a, slope, xi, qr, s) is kept in row-major order as a list.  Only
    [len(cmask)] looks at the shape. *)

From Stdlib Require Import Reals Lra Lia ZArith Bool String List.
Import ListNotations.
Local Open Scope R_scope.

(** ** Floats and outcomes *)

Inductive float : Type :=
  | NaN
  | Fin (r : R).

Inductive result (A : Type) : Type :=
  | Ok (a : A)
  | Raise (exn : string)
  | NonFinite.

Arguments Ok {A} a.
Arguments Raise {A} exn.
Arguments NonFinite {A}.

Definition bind {A B : Type} (c : result A) (k : A -> result B) : result B :=
  match c with
  | Ok a => k a
  | Raise e => Raise e
  | NonFinite => NonFinite
  end.

Notation "x <- c ;; k" := (bind c (fun x => k))
  (at level 61, c at next level, right associativity).

Fixpoint mapM {A B : Type} (f : A -> result B) (l : list A) : result (list B) :=
  match l with
  | [] => Ok []
  | x :: t => y <- f x ;; ys <- mapM f t ;; Ok (y :: ys)
  end.

(** Comparisons of reals as booleans. *)
Definition rlt (x y : R) : bool := if Rlt_dec x y then true else false.
Definition rle (x y : R) : bool := if Rle_dec x y then true else false.
Definition req (x y : R) : bool := if Req_dec_T x y then true else false.

(** Elementwise arithmetic: NaN propagates. *)
Definition lift1 (f : R -> R) (x : float) : float :=
  match x with
  | Fin r => Fin (f r)
  | NaN => NaN
  end.

Definition lift2 (f : R -> R -> R) (x y : float) : float :=
  match x, y with
  | Fin a, Fin b => Fin (f a b)
  | _, _ => NaN
  end.

Definition fadd := lift2 Rplus.
Definition fsub := lift2 Rminus.
Definition fmul := lift2 Rmult.
Definition fneg := lift1 Ropp.

(** Comparisons with NaN are False. *)
Definition flt (x y : float) : bool :=
  match x, y with
  | Fin a, Fin b => rlt a b
  | _, _ => false
  end.

Definition fle (x y : float) : bool :=
  match x, y with
  | Fin a, Fin b => rle a b
  | _, _ => false
  end.

Definition fgt (x y : float) : bool := flt y x.

Definition feq (x y : float) : bool :=
  match x, y with
  | Fin a, Fin b => req a b
  | _, _ => false
  end.

(** [arr[arr < 0] = 0.0] *)
Definition clamp_negative (arr : list float) : list float :=
  map (fun v => if flt v (Fin 0) then Fin 0 else v) arr.

(** [arr[arr > clim] = clim] *)
Definition clamp_above (clim : float) (arr : list float) : list float :=
  map (fun v => if fgt v clim then clim else v) arr.

(** [arr[arr > 0]]: the selected values; none of them is NaN. *)
Fixpoint select_positive (arr : list float) : list R :=
  match arr with
  | [] => []
  | Fin r :: t => if rlt 0 r then r :: select_positive t else select_positive t
  | NaN :: t => select_positive t
  end.

(** [np.nansum]: NaN counts as zero. *)
Fixpoint nansum (arr : list float) : R :=
  match arr with
  | [] => 0
  | Fin r :: t => r + nansum t
  | NaN :: t => nansum t
  end.

(** The number of entries that are not NaN. *)
Fixpoint count_valid (arr : list float) : nat :=
  match arr with
  | [] => O
  | Fin _ :: t => S (count_valid t)
  | NaN :: t => count_valid t
  end.

(** [np.nanmean]: the mean of an all-NaN (or empty) array is NaN, which a
    scalar of the model cannot hold. *)
Definition nanmean (arr : list float) : result R :=
  match count_valid arr with
  | O => NonFinite
  | n => Ok (nansum arr / INR n)
  end.

(** [eps = np.finfo(float).eps], that is 2^-52. *)
Definition eps : R := / 4503599627370496.

(** [a / b] for a Python float [a] and a Python int [b]. *)
Definition py_truediv (a : R) (b : Z) : result R :=
  if Z.eqb b 0 then Raise "ZeroDivisionError" else Ok (a / IZR b).

(** [a / b] for a NumPy scalar [a]: a zero divisor gives inf or NaN with a
    warning, never an exception. *)
Definition np_truediv (a b : R) : result R :=
  if req b 0 then NonFinite else Ok (a / b).

(** ** Inputs *)

Record cell : Type := {
  cmask : float;
  flowacc : float;
  slope : float
}.

(** The parameter dict pp. *)
Record params : Type := {
  pp_dt : R;
  pp_ko : R;
  pp_m : R;
  pp_twi_cutoff : R;
  pp_so : R;
  pp_grid : list (list cell)
}.

(** ** The object *)

Record Topmodel_Homogenous : Type := {
  self_dt : R;
  self_CellArea : Z;
  self_CatchmentArea : Z;
  self_qr : list float;
  self_a : list float;
  self_slope : list float;
  self_M : R;
  self_To : R;
  self_xi : list float;
  self_X : R;
  self_Qo : R;
  self_S : R;
  self_results : option (list (string * list float))
}.

(** [self.S = v] *)
Definition set_S (self : Topmodel_Homogenous) (v : R) : Topmodel_Homogenous :=
  {| self_dt := self_dt self;
     self_CellArea := self_CellArea self;
     self_CatchmentArea := self_CatchmentArea self;
     self_qr := self_qr self;
     self_a := self_a self;
     self_slope := self_slope self;
     self_M := self_M self;
     self_To := self_To self;
     self_xi := self_xi self;
     self_X := self_X self;
     self_Qo := self_Qo self;
     self_S := v;
     self_results := self_results self |}.

(** [self.qr = v] *)
Definition set_qr (self : Topmodel_Homogenous) (v : list float) : Topmodel_Homogenous :=
  {| self_dt := self_dt self;
     self_CellArea := self_CellArea self;
     self_CatchmentArea := self_CatchmentArea self;
     self_qr := v;
     self_a := self_a self;
     self_slope := self_slope self;
     self_M := self_M self;
     self_To := self_To self;
     self_xi := self_xi self;
     self_X := self_X self;
     self_Qo := self_Qo self;
     self_S := self_S self;
     self_results := self_results self |}.

(** ** Methods *)

(** [local_s]: s = Smean + self.M*(self.X - self.xi) *)
Definition local_s (self : Topmodel_Homogenous) (Smean : R) : list float :=
  map (fun x => fadd (Fin Smean) (fmul (Fin (self_M self)) (fsub (Fin (self_X self)) x)))
      (self_xi self).

(** [subsurfaceflow]: Qb = self.Qo*np.exp(-self.S / (self.M + eps)) *)
Definition subsurfaceflow (self : Topmodel_Homogenous) : result R :=
  e <- np_truediv (- self_S self) (self_M self + eps) ;;
  Ok (self_Qo self * exp e).

(** The local variables of [run_timestep] at its return statement, with the
    object as the call leaves it.  [fr_S_prov] is the local [S] after its
    first assignment (the provisional deficit), [fr_S] after its second. *)
Record frame : Type := {
  fr_So : R;
  fr_Qb : R;
  fr_S_prov : R;
  fr_s : list float;
  fr_Qr : R;
  fr_S : R;
  fr_fsat : R;
  fr_mbe : R;
  fr_results : list (string * R);
  fr_self : Topmodel_Homogenous
}.

(** [run_timestep], statement by statement.  [self.qr = -s] binds a new
    array, so the clamp that follows leaves [s] as it is. *)
Definition run_timestep_frame (self : Topmodel_Homogenous) (R_ : R) : result frame :=
  let So := self_S self in
  let s := local_s self So in
  Qb <- subsurfaceflow self ;;
  let S_prov := So + Qb - R_ in
  let s := local_s self S_prov in
  let self := set_qr self (map fneg s) in
  let self := set_qr self (clamp_negative (self_qr self)) in
  Qr <- np_truediv (nansum (self_qr self) * IZR (self_CellArea self))
                   (IZR (self_CatchmentArea self)) ;;
  let S_ := S_prov + Qr in
  let self := set_S self S_ in
  let ix := filter (fun v => fle v (Fin 0)) s in
  fsat <- py_truediv (IZR (Z.of_nat (length ix) * self_CellArea self))
                     (self_CatchmentArea self) ;;
  let dS := So - self_S self in
  let dF := R_ - Qb - Qr in
  let mbe := dS - dF in
  let results := [ ("baseflow"%string, Qb * 1000);
                   ("water_closure"%string, mbe * 1000);
                   ("saturated_area"%string, self_S self) ] in
  Ok {| fr_So := So; fr_Qb := Qb; fr_S_prov := S_prov; fr_s := s; fr_Qr := Qr;
        fr_S := S_; fr_fsat := fsat; fr_mbe := mbe; fr_results := results;
        fr_self := self |}.

(** What the caller sees: the updated object and the returned dict. *)
Definition run_timestep (self : Topmodel_Homogenous) (R_ : R)
  : result (Topmodel_Homogenous * list (string * R)) :=
  fr <- run_timestep_frame self R_ ;;
  Ok (fr_self fr, fr_results fr).

(** Successive calls of [run_timestep] on one object, one per recharge
    value, with the dicts they return. *)
Fixpoint run_steps (self : Topmodel_Homogenous) (Rs : list R)
  : result (Topmodel_Homogenous * list (list (string * R))) :=
  match Rs with
  | [] => Ok (self, [])
  | R_ :: t =>
      out <- run_timestep self R_ ;;
      rest <- run_steps (fst out) t ;;
      Ok (fst rest, snd out :: snd rest)
  end.

(** ** The constructor *)

(** [if not S_initial: S_initial = pp['so']]: None and 0.0 are both falsy. *)
Definition effective_S_initial (pp : params) (S_initial : option R) : R :=
  match S_initial with
  | None => pp_so pp
  | Some v => if req v 0 then pp_so pp else v
  end.

(** [np.size(cmask[cmask == 1])] *)
Definition count_active (cells : list cell) : nat :=
  length (filter (fun c => feq (cmask c) (Fin 1)) cells).

(** [np.radians] *)
Definition radians (deg : R) : R := deg * (PI / 180).

(** One entry of [np.log(self.a / dx / (np.tan(slope_rad) + eps))], with
    [slope_rad = np.radians(self.slope)].  NaN propagates and the logarithm
    of a negative number is NaN; a zero divisor and a zero argument of the
    logarithm leave the reals, and so does the tangent where the cosine
    vanishes. *)
Definition wetness_index (dx : R) (a sl : float) : result float :=
  match a, sl with
  | Fin a, Fin sl =>
      let slope_rad := radians sl in
      if req dx 0 || req (cos slope_rad) 0 || req (tan slope_rad + eps) 0
      then NonFinite
      else
        let q := a / dx / (tan slope_rad + eps) in
        if rlt q 0 then Ok NaN
        else if req q 0 then NonFinite
        else Ok (Fin (ln q))
  | _, _ => Ok NaN
  end.

Definition results_keys : list string :=
  [ "S"; "Qb"; "Qr"; "Qt"; "qr"; "fsat"; "Mbe"; "R" ]%string.

Section Construction.

(** [np.percentile] on the selected sample, a library function: it may
    raise (a percentile outside [0, 100]; in some NumPy versions an empty
    sample) or return a float (NaN for an empty sample in others). *)
Variable percentile : list R -> R -> result float.

(** The index field before the cutoff is applied (lines 45-71). *)
Definition unclamped_xi (pp : params) : result (list float) :=
  let cells := concat (pp_grid pp) in
  let CellArea := (Z.of_nat (length (pp_grid pp)) * 16)%Z in
  let dx := sqrt (IZR CellArea) in
  let a := map (fun c => fmul (flowacc c) (cmask c)) cells in
  let slope := map (fun c => fmul (slope c) (cmask c)) cells in
  mapM (fun p => wetness_index dx (fst p) (snd p)) (combine a slope).

(** The cutoff value (line 73). *)
Definition cutoff (pp : params) (xi : list float) : result float :=
  percentile (select_positive xi) (pp_twi_cutoff pp).

Definition init (pp : params) (S_initial : option R) (outputs : bool)
  : result Topmodel_Homogenous :=
  let S_initial := effective_S_initial pp S_initial in
  let dt := pp_dt pp in
  let cells := concat (pp_grid pp) in
  let CellArea := (Z.of_nat (length (pp_grid pp)) * 16)%Z in
  let CatchmentArea := (Z.of_nat (count_active cells) * CellArea)%Z in
  let qr := map (fun _ => Fin 0) cells in
  let a := map (fun c => fmul (flowacc c) (cmask c)) cells in
  let slope := map (fun c => fmul (slope c) (cmask c)) cells in
  let M := pp_m pp in
  let To := pp_ko pp * dt in
  xi <- unclamped_xi pp ;;
  clim <- cutoff pp xi ;;
  let xi := clamp_above clim xi in
  inv <- py_truediv 1 CatchmentArea ;;
  let X := inv * nansum (map (fun v => fmul v (Fin (IZR CellArea))) xi) in
  let Qo := To * exp (- X) in
  (* self.S is assigned last; local_s does not read it *)
  let self :=
    {| self_dt := dt; self_CellArea := CellArea;
       self_CatchmentArea := CatchmentArea; self_qr := qr; self_a := a;
       self_slope := slope; self_M := M; self_To := To; self_xi := xi;
       self_X := X; self_Qo := Qo; self_S := 0;
       self_results :=
         if outputs then Some (map (fun k => (k, [])) results_keys) else None |} in
  let s := local_s self S_initial in
  let s := clamp_negative s in
  S_ <- nanmean s ;;
  Ok (set_S self S_).

End Construction.

(** Insertion sort, for the sample of [np.percentile]. *)
Fixpoint insert_sorted (x : R) (l : list R) : list R :=
  match l with
  | [] => [x]
  | y :: t => if rle x y then x :: l else y :: insert_sorted x t
  end.

Definition np_sort (l : list R) : list R := fold_right insert_sorted [] l.

(** NumPy's percentile with the default (linear) interpolation, on a sample
    without NaN: a percentile outside [0, 100] raises ValueError; otherwise
    the result is the value at the fractional position q/100*(n-1) of the
    sorted sample.  [on_empty] is what the installed NumPy does with an empty
    sample. *)
Definition np_percentile (on_empty : result float) (a : list R) (q : R) : result float :=
  if rlt q 0 || rlt 100 q then Raise "ValueError"
  else
    match np_sort a with
    | [] => on_empty
    | x :: t =>
        let n := length (x :: t) in
        let pos := q / 100 * INR (n - 1) in
        let lo := Z.to_nat (Int_part pos) in
        let hi := Nat.min (lo + 1) (n - 1) in
        let vlo := nth lo (x :: t) 0 in
        let vhi := nth hi (x :: t) 0 in
        Ok (Fin (vlo + (pos - IZR (Int_part pos)) * (vhi - vlo)))
    end.

(** [d[k]] on a returned dict. *)
Fixpoint dict_get (k : string) (d : list (string * R)) : option R :=
  match d with
  | [] => None
  | (k', v) :: t => if String.eqb k k' then Some v else dict_get k t
  end.

(** ** What the specification speaks of *)

(** The return flow of one cell, in the specification's words: the magnitude
    of a negative local deficit, zero otherwise; nothing for a cell without
    an index. *)
Definition returnflow_cell (self : Topmodel_Homogenous) (S_prov : R) (x : float) : float :=
  match x with
  | Fin xi => Fin (Rmax 0 (- (S_prov + self_M self * (self_X self - xi))))
  | NaN => NaN
  end.

(** The cell-area-weighted sum of the return flow over the cells that carry
    an index. *)
Fixpoint returnflow_area_sum (self : Topmodel_Homogenous) (S_prov : R) (xi : list float) : R :=
  match xi with
  | [] => 0
  | Fin x :: t =>
      Rmax 0 (- (S_prov + self_M self * (self_X self - x))) * IZR (self_CellArea self)
      + returnflow_area_sum self S_prov t
  | NaN :: t => returnflow_area_sum self S_prov t
  end.

(** The cell-area-weighted average of a field over the active cells of the
    mask (cmask == 1), by catchment area.  A NaN in an active cell makes the
    average NaN; inactive cells are left out. *)
Fixpoint active_area_sum (CellArea : R) (cells : list cell) (field : list float) : float :=
  match cells, field with
  | c :: cs, v :: vs =>
      if feq (cmask c) (Fin 1)
      then fadd (fmul v (Fin CellArea)) (active_area_sum CellArea cs vs)
      else active_area_sum CellArea cs vs
  | _, _ => Fin 0
  end.

Definition active_mean (pp : params) (self : Topmodel_Homogenous) (field : list float) : float :=
  lift1 (fun t => t / IZR (self_CatchmentArea self))
        (active_area_sum (IZR (self_CellArea self)) (concat (pp_grid pp)) field).

(** A topography as the data model describes it: the mask is 1 on the
    catchment and NaN elsewhere, and every catchment cell carries a positive
    flow accumulation and a slope of at least 0 and less than 90 degrees. *)
Definition valid_cell (c : cell) : Prop :=
  cmask c = NaN \/
  (cmask c = Fin 1 /\
   exists f s, flowacc c = Fin f /\ slope c = Fin s /\ 0 < f /\ 0 <= s < 90).

Definition valid_topography (pp : params) : Prop :=
  Forall valid_cell (concat (pp_grid pp)).

(** The constants of an object agree with its index field: the catchment
    area counts the cells that carry an index, and X is their area-weighted
    mean. *)
Definition consistent (self : Topmodel_Homogenous) : Prop :=
  (0 < self_CellArea self)%Z /\
  (0 < count_valid (self_xi self))%nat /\
  self_CatchmentArea self
    = (Z.of_nat (count_valid (self_xi self)) * self_CellArea self)%Z /\
  self_X self * IZR (self_CatchmentArea self)
    = nansum (map (fun v => fmul v (Fin (IZR (self_CellArea self)))) (self_xi self)).


(** [self] is [self0] after some timesteps: the two differ at most in the
    state S and in the transient field qr. *)
Definition state_of (self0 self : Topmodel_Homogenous) : Prop :=
  self = set_S (set_qr self0 (self_qr self)) (self_S self).

(** [np.where(s <= 0)], counted. *)
Definition count_saturated (s : list float) : nat :=
  length (filter (fun v => fle v (Fin 0)) s).

(** A cell of the mask and the entry of a field at its place: a number on
    an active cell, NaN elsewhere. *)
Definition indexed (c : cell) (x : float) : Prop :=
  if feq (cmask c) (Fin 1) then exists r, x = Fin r else x = NaN.

(** ** Worked inputs *)

(** One row of three cells with the shipped parameter values (dt, ko, m, so
    of ptopmodel) and the median as cutoff: two flat catchment cells with
    flow accumulation 4 and 8, and one cell outside the catchment. *)
Definition example_pp : params :=
  {| pp_dt := 86400; pp_ko := 1 / 1000; pp_m := 25 / 1000; pp_twi_cutoff := 50;
     pp_so := 5 / 100;
     pp_grid := [ [ {| cmask := Fin 1; flowacc := Fin 4; slope := Fin 0 |};
                    {| cmask := Fin 1; flowacc := Fin 8; slope := Fin 0 |};
                    {| cmask := NaN; flowacc := Fin 5; slope := Fin 10 |} ] ] |}.

(** The unclamped indices of its two catchment cells, ln(a/dx/eps) with
    dx = 4, and the median between them. *)
Definition example_x1 : R := ln (/ eps).
Definition example_x2 : R := ln (2 / eps).
Definition example_clim : R := (example_x1 + example_x2) / 2.

(** The object the constructor builds from it. *)
Definition example_self : Topmodel_Homogenous :=
  {| self_dt := 86400;
     self_CellArea := 16;
     self_CatchmentArea := 32;
     self_qr := [Fin 0; Fin 0; Fin 0];
     self_a := [Fin 4; Fin 8; NaN];
     self_slope := [Fin 0; Fin 0; NaN];
     self_M := 25 / 1000;
     self_To := 864 / 10;
     self_xi := [Fin example_x1; Fin example_clim; NaN];
     self_X := (example_x1 + example_clim) / 2;
     self_Qo := 864 / 10 * exp (- ((example_x1 + example_clim) / 2));
     self_S := 5 / 100;
     self_results := None |}.

(** A grid whose only cell lies outside the catchment. *)
Definition masked_out_pp : params :=
  {| pp_dt := 86400; pp_ko := 1 / 1000; pp_m := 25 / 1000; pp_twi_cutoff := 995 / 10;
     pp_so := 5 / 100;
     pp_grid := [ [ {| cmask := NaN; flowacc := Fin 4; slope := Fin 0 |} ] ] |}.

(** The worked input with the depth parameter m set to -1. *)
Definition negative_depth_pp : params :=
  {| pp_dt := pp_dt example_pp; pp_ko := pp_ko example_pp; pp_m := -1;
     pp_twi_cutoff := pp_twi_cutoff example_pp; pp_so := pp_so example_pp;
     pp_grid := pp_grid example_pp |}.

(** The two-cell scenario of the specification: indices 1 and 3, X = 2,
    M = 0.025, To = 86.4, S = 0.05 (with the cell area the constructor would
    give a one-row grid). *)
Definition scenario_self : Topmodel_Homogenous :=
  {| self_dt := 86400;
     self_CellArea := 16;
     self_CatchmentArea := 32;
     self_qr := [Fin 0; Fin 0];
     self_a := [Fin 4; Fin 8];
     self_slope := [Fin 0; Fin 0];
     self_M := 25 / 1000;
     self_To := 864 / 10;
     self_xi := [Fin 1; Fin 3];
     self_X := 2;
     self_Qo := 864 / 10 * exp (- 2);
     self_S := 5 / 100;
     self_results := None |}.

(** ** Further definitions *)

(** The dict pp with pp['so'] replaced. *)
Definition set_so (pp : params) (v : R) : params :=
  {| pp_dt := pp_dt pp; pp_ko := pp_ko pp; pp_m := pp_m pp;
     pp_twi_cutoff := pp_twi_cutoff pp; pp_so := v; pp_grid := pp_grid pp |}.

(** An entry of a field that is NaN or a number >= 0. *)
Definition nan_or_nonneg (v : float) : Prop :=
  match v with
  | NaN => True
  | Fin r => 0 <= r
  end.

(** Two fields that are NaN at the same places. *)
Definition same_nan (x y : float) : Prop :=
  match x, y with
  | NaN, NaN => True
  | Fin _, Fin _ => True
  | _, _ => False
  end.

(** The parameter dict that holds the scalars of [d] under the keys the
    constructor reads and the three arrays of [grid]; nothing when one of
    the scalar keys is missing from [d]. *)
Definition with_topography (d : list (string * R)) (grid : list (list cell))
  : option params :=
  match dict_get "dt" d, dict_get "ko" d, dict_get "m" d,
        dict_get "twi_cutoff" d, dict_get "so" d with
  | Some dt, Some ko, Some m, Some q, Some so =>
      Some {| pp_dt := dt; pp_ko := ko; pp_m := m; pp_twi_cutoff := q;
              pp_so := so; pp_grid := grid |}
  | _, _, _, _, _ => None
  end.



(** ** float64 rounding, for the baseflow

    The finite float64 numbers are the reals m * 2^e with |m| < 2^53 and
    -1074 <= e <= 971 (the subnormals are those with e = -1074). *)
Definition binary64 (x : R) : Prop :=
  exists m e : Z,
    (Z.abs m < 2 ^ 53)%Z /\ (-1074 <= e <= 971)%Z /\ x = IZR m * powerRZ 2 e.


(** From this magnitude on, rounding to nearest gives an infinity. *)
Definition binary64_overflow : R := IZR (2 ^ 1024 - 2 ^ 970).

(** [f] is a float64 result of an operation whose exact value is [y]: the
    exact value does not overflow and [f] is a finite float64 nearest to it.
    A relation: which of two nearest floats a tie goes to is left open. *)
Definition rounds_to (y f : R) : Prop :=
  Rabs y < binary64_overflow /\
  binary64 f /\
  forall g, binary64 g -> Rabs (y - f) <= Rabs (y - g).

(** [subsurfaceflow] (line 102) with the rounding of each of its float64
    operations, in the order Python evaluates them: the sum M + eps, the
    quotient -S / (M + eps), np.exp of it (taken as correctly rounded), and
    the product with Qo.  There is no outcome where the divisor rounds to
    zero or an operation overflows. *)
Definition subsurfaceflow_f64 (self : Topmodel_Homogenous) (Qb : R) : Prop :=
  exists d q ex,
    rounds_to (self_M self + eps) d /\
    d <> 0 /\
    rounds_to (- self_S self / d) q /\
    rounds_to (exp q) ex /\
    rounds_to (self_Qo self * ex) Qb.

(** ** parameters.py

    The functions of parameters.py return nested dicts of literals.  A
    Python value is a float (read as the rational its literal denotes), an
    int, a bool, a str, a list or a dict with str keys, in the order of the
    source. *)

From Stdlib Require Import QArith.
Local Open Scope R_scope.

#[local] Set Warnings "-register-all".

Inductive pyval : Type :=
  | PyFloat (q : Q)
  | PyInt (z : Z)
  | PyBool (b : bool)
  | PyStr (s : string)
  | PyList (l : list pyval)
  | PyDict (d : list (string * pyval)).

(** [l * n] for a list [l] and an int [n >= 0]. *)
Definition py_list_mul (l : list pyval) (n : nat) : list pyval :=
  concat (repeat l n).

(** The items of a dict (nothing for another value). *)
Definition py_items (v : pyval) : list (string * pyval) :=
  match v with
  | PyDict d => d
  | _ => []
  end.

(** [d[k]]; nothing stands for the KeyError. *)
Fixpoint assoc_get (k : string) (d : list (string * pyval)) : option pyval :=
  match d with
  | [] => None
  | (k', v) :: t => if String.eqb k k' then Some v else assoc_get k t
  end.

Definition py_getitem (k : string) (v : pyval) : option pyval :=
  assoc_get k (py_items v).

(** [d[k]] when it is a float. *)
Definition py_float_at (k : string) (v : pyval) : option Q :=
  match py_getitem k v with
  | Some (PyFloat q) => Some q
  | _ => None
  end.

(** A list of floats. *)
Fixpoint floats_of (l : list pyval) : option (list Q) :=
  match l with
  | [] => Some []
  | PyFloat q :: t =>
      match floats_of t with
      | Some qs => Some (q :: qs)
      | None => None
      end
  | _ :: _ => None
  end.

(** [d[k]] when it is a list of floats. *)
Definition py_floats_at (k : string) (v : pyval) : option (list Q) :=
  match py_getitem k v with
  | Some (PyList l) => floats_of l
  | _ => None
  end.

(** The numeric entries of a dict, as the reals they denote. *)
Fixpoint scalars_of (d : list (string * pyval)) : list (string * R) :=
  match d with
  | [] => []
  | (k, PyFloat q) :: t => (k, Q2R q) :: scalars_of t
  | (k, PyInt z) :: t => (k, IZR z) :: scalars_of t
  | _ :: t => scalars_of t
  end.

Definition py_scalars (v : pyval) : list (string * R) := scalars_of (py_items v).

Section Parameters.

Local Open Scope string_scope.

(** [time.strftime('%Y%m%d%H%M')], the clock reading of the call, and
    [str(pathlib.Path(p))], the platform's spelling of a path. *)
Variable stamp : string.
Variable path_str : string -> string.

(** [pgen] of [parameters(folder)] (lines 13-94). *)
Definition pgen (folder : string) : pyval :=
  PyDict [
    ("description", PyStr "testcase");
    ("simtype", PyStr "2D");
    ("start_date", PyStr "2007-08-01");
    ("end_date", PyStr "2021-09-09");
    ("spinup_end", PyStr "2008-12-31");
    ("dt", PyFloat 86400.0);
    ("spatial_cpy", PyBool true);
    ("spatial_soil", PyBool true);
    ("topmodel", PyBool true);
    ("spatial_forcing", PyBool false);
    ("gis_folder", PyStr (path_str (folder ++ "/parameters")));
    ("forcing_file", PyStr (path_str (folder ++ "/forcing/Kenttarova_forcing_era5.csv")));
    ("forcing_id", PyInt 0);
    ("ncf_file", PyStr (((folder ++ "_") ++ stamp) ++ ".nc"));
    ("results_folder", PyStr "D:\SpaFHy_2D_2021/");
    ("save_interval", PyInt 366);
    ("variables", PyList [
        PyList [PyStr "parameters_lai_conif"; PyStr "leaf area index of conifers [m2 m-2]"];
        PyList [PyStr "parameters_lai_decid_max"; PyStr "leaf area index of decidious trees [m2 m-2]"];
        PyList [PyStr "parameters_lai_shrub"; PyStr "leaf area index of shrubs [m2 m-2]"];
        PyList [PyStr "parameters_lai_grass"; PyStr "leaf area index of grass [m2 m-2]"];
        PyList [PyStr "parameters_hc"; PyStr "canopy height [m]"];
        PyList [PyStr "parameters_cf"; PyStr "canopy closure [-]"];
        PyList [PyStr "parameters_soilclass"; PyStr "soil class index"];
        PyList [PyStr "parameters_elevation"; PyStr "elevation from dem [m]"];
        PyList [PyStr "parameters_lat"; PyStr "latitude [deg]"];
        PyList [PyStr "parameters_lon"; PyStr "longitude [deg]"];
        PyList [PyStr "parameters_ditches"; PyStr "ditches"];
        PyList [PyStr "parameters_cmask"; PyStr "cmask"];
        PyList [PyStr "parameters_sitetype"; PyStr "sitetype"];
        PyList [PyStr "parameters_twi"; PyStr "twi"];
        PyList [PyStr "forcing_air_temperature"; PyStr "air temperature [degC]"];
        PyList [PyStr "forcing_precipitation"; PyStr "precipitation [mm d-1]"];
        PyList [PyStr "forcing_vapor_pressure_deficit"; PyStr "vapor pressure deficit [kPa]"];
        PyList [PyStr "forcing_global_radiation"; PyStr "global radiation [Wm-2]"];
        PyList [PyStr "forcing_wind_speed"; PyStr "wind speed [m s-1]"];
        PyList [PyStr "bucket_moisture_top"; PyStr "volumetric water content of moss layer [m3 m-3]"];
        PyList [PyStr "bucket_moisture_root"; PyStr "volumetric water content of rootzone [m3 m-3]"];
        PyList [PyStr "bucket_potential_infiltration"; PyStr "potential infiltration [mm d-1]"];
        PyList [PyStr "bucket_surface_runoff"; PyStr "surface runoff [mm d-1]"];
        PyList [PyStr "bucket_evaporation"; PyStr "evaporation from soil surface [mm d-1]"];
        PyList [PyStr "bucket_drainage"; PyStr "drainage from root layer [mm d-1]"];
        PyList [PyStr "bucket_water_storage"; PyStr "bucket water storage (top and root) [mm d-1]"];
        PyList [PyStr "bucket_storage_change"; PyStr "bucket water storage change (top and root) [mm d-1]"];
        PyList [PyStr "bucket_water_closure"; PyStr "bucket water balance error [mm d-1]"];
        PyList [PyStr "bucket_return_flow"; PyStr "return flow from deepzone to bucket [mm d-1]"];
        PyList [PyStr "soil_water_storage"; PyStr "soil water storage (deeplayer) [m]"];
        PyList [PyStr "soil_ground_water_level"; PyStr "ground water level [m]"];
        PyList [PyStr "soil_lateral_netflow"; PyStr "subsurface lateral netflow [mm d-1]"];
        PyList [PyStr "soil_netflow_to_ditch"; PyStr "netflow to ditch [mm d-1]"];
        PyList [PyStr "soil_moisture_deep"; PyStr "volumetric water content of deepzone [m3 m-3]"];
        PyList [PyStr "soil_water_closure"; PyStr "soil water balance error [mm d-1]"];
        PyList [PyStr "soil_transpiration_limitation"; PyStr "transpiration limitation [-]"];
        PyList [PyStr "canopy_evaporation"; PyStr "evaporation from interception storage [mm d-1]"];
        PyList [PyStr "canopy_transpiration"; PyStr "transpiration [mm d-1]"];
        PyList [PyStr "canopy_snow_water_equivalent"; PyStr "snow water equivalent [mm]"];
        PyList [PyStr "canopy_water_closure"; PyStr "canopy water balance error [mm d-1]"];
        PyList [PyStr "canopy_water_storage"; PyStr "canopy intercepted water storage"];
        PyList [PyStr "canopy_snowfall"; PyStr "canopy snowfall"];
        PyList [PyStr "top_baseflow"; PyStr "topmodel baseflow [mm d-1]"];
        PyList [PyStr "top_water_closure"; PyStr "topmodel water balance error [mm d-1]"];
        PyList [PyStr "top_returnflow"; PyStr "topmodel returnflow [mm d-1]"];
        PyList [PyStr "top_local_returnflow"; PyStr "topmodel local returnflow [mm d-1]"];
        PyList [PyStr "top_drainage_in"; PyStr "topmodel inflow from drainage [mm d-1]"];
        PyList [PyStr "top_saturation_deficit"; PyStr "topmodel saturation deficit [m]"];
        PyList [PyStr "top_local_saturation_deficit"; PyStr "topmodel local saturation deficit [mm]"];
        PyList [PyStr "top_saturated_area"; PyStr "topmodel saturated area [-]"];
        PyList [PyStr "top_storage_change"; PyStr "topmodel_water_storage_change [mm d-1]"] ]) ].

(** [pcpy] of [parameters(folder)], with [f = 1.0] (lines 96-175). *)
Definition pcpy : pyval :=
  let f := 1.0%Q in
  PyDict [
    ("flow", PyDict [
        ("zmeas", PyFloat 2.0);
        ("zground", PyFloat 0.5);
        ("zo_ground", PyFloat 0.01) ]);
    ("interc", PyDict [
        ("wmax", PyFloat 1.5);
        ("wmaxsnow", PyFloat 4.5) ]);
    ("snow", PyDict [
        ("kmelt", PyFloat 2.8934e-05);
        ("kfreeze", PyFloat 5.79e-6);
        ("r", PyFloat 0.05) ]);
    ("physpara", PyDict [
        ("amax", PyFloat 10.0);
        ("g1_conif", PyFloat (f * 2.1));
        ("g1_decid", PyFloat (f * 3.5));
        ("q50", PyFloat 50.0);
        ("kp", PyFloat 0.6);
        ("rw", PyFloat 0.20);
        ("rwmin", PyFloat 0.02);
        ("gsoil", PyFloat 1e-2) ]);
    ("spec_para", PyDict [
        ("conif", PyDict [
            ("amax", PyFloat 10.0);
            ("g1", PyFloat 2.1);
            ("q50", PyFloat 50.0);
            ("lai_cycle", PyBool false) ]);
        ("decid", PyDict [
            ("amax", PyFloat 10.0);
            ("g1", PyFloat 3.5);
            ("q50", PyFloat 50.0);
            ("lai_cycle", PyBool true) ]);
        ("shrub", PyDict [
            ("amax", PyFloat 10.0);
            ("g1", PyFloat 3.0);
            ("q50", PyFloat 50.0);
            ("lai_cycle", PyBool false) ]);
        ("grass", PyDict [
            ("amax", PyFloat 10.0);
            ("g1", PyFloat 5.0);
            ("q50", PyFloat 50.0);
            ("lai_cycle", PyBool true) ]) ]);
    ("phenopara", PyDict [
        ("smax", PyFloat 18.5);
        ("tau", PyFloat 13.0);
        ("xo", PyFloat (- 4.0));
        ("fmin", PyFloat 0.05);
        ("lai_decid_min", PyFloat 0.1);
        ("ddo", PyFloat 45.0);
        ("ddur", PyFloat 23.0);
        ("sdl", PyFloat 9.0);
        ("sdur", PyFloat 30.0) ]);
    ("state", PyDict [
        ("lai_conif", PyFloat 3.5);
        ("lai_decid_max", PyFloat 0.5);
        ("lai_shrub", PyFloat 0.1);
        ("lai_grass", PyFloat 0.2);
        ("hc", PyFloat 16.0);
        ("cf", PyFloat 0.6);
        ("w", PyFloat 0.0);
        ("swe", PyFloat 0.0) ]);
    ("loc", PyDict [
        ("lat", PyFloat 67.995);
        ("lon", PyFloat 24.224) ]) ].

(** [psp] of [parameters(folder)] (lines 178-200). *)
Definition psp : pyval :=
  PyDict [
    ("soil_id", PyFloat 2.0);
    ("org_depth", PyFloat 0.05);
    ("org_poros", PyFloat 0.9);
    ("org_fc", PyFloat 0.3);
    ("org_rw", PyFloat 0.15);
    ("maxpond", PyFloat 0.0);
    ("root_depth", PyFloat 0.3);
    ("root_sat", PyFloat 0.6);
    ("root_fc", PyFloat 0.33);
    ("root_poros", PyFloat 0.448);
    ("root_wp", PyFloat 0.13);
    ("root_ksat", PyFloat 1e-05);
    ("root_beta", PyFloat 4.7);
    ("ground_water_level", PyFloat (- 0.5));
    ("org_sat", PyFloat 1.0);
    ("pond_storage", PyFloat 0.0);
    ("ditch_depth", PyFloat (- 0.2)) ].

(** [ptopmodel()]: parameters of the topmodel submodel. *)
Definition ptopmodel : pyval :=
  PyDict [
    ("dt", PyFloat 86400.0);
    ("m", PyFloat 0.025);
    ("ko", PyFloat 0.001);
    ("twi_cutoff", PyFloat 99.5);
    ("so", PyFloat 0.05) ].

(** [topsoil()]: properties of typical topsoils. *)
Definition topsoil : pyval :=
  PyDict [
    ("mineral", PyDict [
        ("topsoil_id", PyInt 1);
        ("org_depth", PyFloat 0.05);
        ("org_poros", PyFloat 0.88);
        ("org_fc", PyFloat 0.33);
        ("org_rw", PyFloat 0.15) ]);
    ("fen", PyDict [
        ("topsoil_id", PyInt 2);
        ("org_depth", PyFloat 0.05);
        ("org_poros", PyFloat 0.88);
        ("org_fc", PyFloat 0.514);
        ("org_rw", PyFloat 0.15) ]);
    ("peatland", PyDict [
        ("topsoil_id", PyInt 3);
        ("org_depth", PyFloat 0.05);
        ("org_poros", PyFloat 0.88);
        ("org_fc", PyFloat 0.53);
        ("org_rw", PyFloat 0.15) ]);
    ("openmire", PyDict [
        ("topsoil_id", PyInt 4);
        ("org_depth", PyFloat 0.05);
        ("org_poros", PyFloat 0.88);
        ("org_fc", PyFloat 0.53);
        ("org_rw", PyFloat 0.15) ]) ].

(** [soilprofiles()]: properties of soil profiles. *)
Definition soilprofiles : pyval :=
  PyDict [
    ("CoarseTextured", PyDict [
        ("soil_id", PyFloat 1.0);
        ("z", PyList [PyFloat (- 0.5); PyFloat (- 4.0)]);
        ("pF", PyDict [
            ("ThetaS", PyList (py_list_mul [PyFloat 0.348] 2));
            ("ThetaR", PyList (py_list_mul [PyFloat 0.03] 2));
            ("alpha", PyList (py_list_mul [PyFloat 0.054] 2));
            ("n", PyList (py_list_mul [PyFloat 1.293] 2)) ]);
        ("saturated_conductivity", PyList [PyFloat 1e-04; PyFloat 1e-05]) ]);
    ("MediumTextured", PyDict [
        ("soil_id", PyFloat 2.0);
        ("z", PyList [PyFloat (- 0.5); PyFloat (- 4.0)]);
        ("pF", PyDict [
            ("ThetaS", PyList (py_list_mul [PyFloat 0.448] 2));
            ("ThetaR", PyList (py_list_mul [PyFloat 0.03] 2));
            ("alpha", PyList (py_list_mul [PyFloat 0.054] 2));
            ("n", PyList (py_list_mul [PyFloat 1.293] 2)) ]);
        ("saturated_conductivity", PyList [PyFloat 1e-05; PyFloat 1e-05]) ]);
    ("FineTextured", PyDict [
        ("soil_id", PyFloat 3.0);
        ("z", PyList [PyFloat (- 0.05); PyFloat (- 0.1); PyFloat (- 0.8); PyFloat (- 4.0)]);
        ("pF", PyDict [
            ("ThetaS", PyList (py_list_mul [PyFloat 0.443] 4));
            ("ThetaR", PyList (py_list_mul [PyFloat 0.03] 4));
            ("alpha", PyList (py_list_mul [PyFloat 0.054] 4));
            ("n", PyList (py_list_mul [PyFloat 1.293] 4)) ]);
        ("saturated_conductivity", PyList (py_list_mul [PyFloat 1e-05] 4)) ]);
    ("Peat", PyDict [
        ("soil_id", PyFloat 4.0);
        ("z", PyList [PyFloat (- 0.3); PyFloat (- 0.6); PyFloat (- 0.9); PyFloat (- 1.2); PyFloat (- 4.0)]);
        ("pF", PyDict [
            ("ThetaS", PyList (py_list_mul [PyFloat 0.88] 5));
            ("ThetaR", PyList (py_list_mul [PyFloat 0.196] 5));
            ("alpha", PyList (py_list_mul [PyFloat 0.072] 5));
            ("n", PyList (py_list_mul [PyFloat 1.255] 5)) ]);
        ("saturated_conductivity", PyList [PyFloat 1e-04; PyFloat 5e-05; PyFloat 1e-05; PyFloat 5e-07; PyFloat 2e-07]) ]);
    ("Humus", PyDict [
        ("soil_id", PyFloat 5.0);
        ("z", PyList [PyFloat (- 2.0)]);
        ("pF", PyDict [
            ("ThetaS", PyList [PyFloat 0.44]);
            ("ThetaR", PyList [PyFloat 0.024]);
            ("alpha", PyList [PyFloat 0.053]);
            ("n", PyList [PyFloat 1.251]) ]);
        ("saturated_conductivity", PyList [PyFloat 1e-06]) ]) ].

(** [rootproperties()]: the root-zone parameters of the five soil types. *)
Definition rootproperties : pyval :=
  PyDict [
    ("CoarseTextured", PyDict [
        ("root_airentry", PyFloat 20.8);
        ("root_alpha", PyFloat 0.024);
        ("root_beta", PyFloat 3.1);
        ("root_fc", PyFloat 0.21);
        ("root_ksat", PyFloat 1e-04);
        ("root_n", PyFloat 1.2);
        ("root_poros", PyFloat 0.41);
        ("soil_id", PyFloat 1.0);
        ("root_wp", PyFloat 0.10);
        ("root_wr", PyFloat 0.05) ]);
    ("MediumTextured", PyDict [
        ("root_airentry", PyFloat 20.8);
        ("root_alpha", PyFloat 0.024);
        ("root_beta", PyFloat 4.7);
        ("root_fc", PyFloat 0.33);
        ("root_ksat", PyFloat 1e-05);
        ("root_n", PyFloat 1.2);
        ("root_poros", PyFloat 0.448);
        ("soil_id", PyFloat 2.0);
        ("root_wp", PyFloat 0.13);
        ("root_wr", PyFloat 0.05) ]);
    ("FineTextured", PyDict [
        ("root_airentry", PyFloat 34.2);
        ("root_alpha", PyFloat 0.018);
        ("root_beta", PyFloat 7.9);
        ("root_fc", PyFloat 0.34);
        ("root_ksat", PyFloat 1e-05);
        ("root_n", PyFloat 1.16);
        ("root_poros", PyFloat 0.443);
        ("soil_id", PyFloat 3.0);
        ("root_wp", PyFloat 0.25);
        ("root_wr", PyFloat 0.07) ]);
    ("Peat", PyDict [
        ("root_airentry", PyFloat 29.2);
        ("root_alpha", PyFloat 0.08);
        ("root_beta", PyFloat 6.0);
        ("root_fc", PyFloat 0.53);
        ("root_ksat", PyFloat 3e-04);
        ("root_n", PyFloat 1.75);
        ("root_poros", PyFloat 0.888);
        ("soil_id", PyFloat 4.0);
        ("root_wp", PyFloat 0.36);
        ("root_wr", PyFloat 0.0) ]);
    ("Humus", PyDict [
        ("root_airentry", PyFloat 29.2);
        ("root_alpha", PyFloat 0.123);
        ("root_beta", PyFloat 6.0);
        ("root_fc", PyFloat 0.35);
        ("root_ksat", PyFloat 8e-06);
        ("root_n", PyFloat 1.28);
        ("root_poros", PyFloat 0.85);
        ("soil_id", PyFloat 5.0);
        ("root_wp", PyFloat 0.15);
        ("root_wr", PyFloat 0.01) ]) ].

(** [parameters(folder)] *)
Definition parameters (folder : string) : pyval * pyval * pyval :=
  (pgen folder, pcpy, psp).

End Parameters.

(** The names of the output variables listed in [pgen['variables']]: the
    first entry of each row. *)
Definition row_name (row : pyval) : option string :=
  match row with
  | PyList (PyStr name :: _) => Some name
  | _ => None
  end.

Fixpoint row_names (rows : list pyval) : list string :=
  match rows with
  | [] => []
  | row :: t =>
      match row_name row with
      | Some name => name :: row_names t
      | None => row_names t
      end
  end.

Definition variable_names (g : pyval) : list string :=
  match py_getitem "variables" g with
  | Some (PyList rows) => row_names rows
  | _ => []
  end.

(** [a > b > c > ...] *)
Fixpoint strictly_decreasing (l : list Q) : Prop :=
  match l with
  | a :: ((b :: _) as t) => (b < a)%Q /\ strictly_decreasing t
  | _ => True
  end.

(** One profile of [soilprofiles()]: its columns z, ThetaS, ThetaR, alpha,
    n and saturated_conductivity. *)
Definition profile_columns (p : pyval)
  : option (list Q * list Q * list Q * list Q * list Q * list Q) :=
  match py_floats_at "z" p, py_getitem "pF" p,
        py_floats_at "saturated_conductivity" p with
  | Some z, Some pF, Some ks =>
      match py_floats_at "ThetaS" pF, py_floats_at "ThetaR" pF,
            py_floats_at "alpha" pF, py_floats_at "n" pF with
      | Some ts, Some tr, Some al, Some n => Some (z, ts, tr, al, n, ks)
      | _, _, _, _ => None
      end
  | _, _, _ => None
  end.

(** No str occurs twice. *)
Fixpoint distinctb (l : list string) : bool :=
  match l with
  | [] => true
  | x :: t => negb (existsb (String.eqb x) t) && distinctb t
  end.
(** ** Basic facts *)

Lemma rlt_true (x y : R) : x < y -> rlt x y = true.
Proof. intros H. unfold rlt. destruct (Rlt_dec x y); [reflexivity | contradiction]. Qed.

Lemma rlt_false (x y : R) : y <= x -> rlt x y = false.
Proof. intros H. unfold rlt. destruct (Rlt_dec x y); [lra | reflexivity]. Qed.

Lemma rle_true (x y : R) : x <= y -> rle x y = true.
Proof. intros H. unfold rle. destruct (Rle_dec x y); [reflexivity | contradiction]. Qed.

Lemma rle_false (x y : R) : y < x -> rle x y = false.
Proof. intros H. unfold rle. destruct (Rle_dec x y); [lra | reflexivity]. Qed.

Lemma req_true (x y : R) : x = y -> req x y = true.
Proof. intros H. unfold req. destruct (Req_dec_T x y); [reflexivity | contradiction]. Qed.

Lemma req_false (x y : R) : x <> y -> req x y = false.
Proof. intros H. unfold req. destruct (Req_dec_T x y); [contradiction | reflexivity]. Qed.

Lemma rlt_spec (x y : R) : rlt x y = true <-> x < y.
Proof. unfold rlt. destruct (Rlt_dec x y); split; intros; try easy. Qed.

Lemma rle_spec (x y : R) : rle x y = true <-> x <= y.
Proof. unfold rle. destruct (Rle_dec x y); split; intros; try easy. Qed.

Lemma req_spec (x y : R) : req x y = true <-> x = y.
Proof. unfold req. destruct (Req_dec_T x y); split; intros; try easy. Qed.

Lemma eps_pos : 0 < eps.
Proof. unfold eps. lra. Qed.

Lemma np_truediv_ok (a b : R) : b <> 0 -> np_truediv a b = Ok (a / b).
Proof. intros H. unfold np_truediv. now rewrite (req_false _ _ H). Qed.

Lemma py_truediv_ok (a : R) (b : Z) : b <> 0%Z -> py_truediv a b = Ok (a / IZR b).
Proof.
  intros H. unfold py_truediv.
  destruct (Z.eqb_spec b 0); [contradiction | reflexivity].
Qed.

Lemma subsurfaceflow_ok (self : Topmodel_Homogenous) :
  self_M self + eps <> 0 ->
  subsurfaceflow self
  = Ok (self_Qo self * exp (- self_S self / (self_M self + eps))).
Proof. intros H. unfold subsurfaceflow. now rewrite (np_truediv_ok _ _ H). Qed.

(** The frame of a step, written out: the step returns whenever neither
    divisor is zero. *)
Lemma run_timestep_frame_ok (self : Topmodel_Homogenous) (R_ : R) :
  self_M self + eps <> 0 ->
  self_CatchmentArea self <> 0%Z ->
  let Qb := self_Qo self * exp (- self_S self / (self_M self + eps)) in
  let S_prov := self_S self + Qb - R_ in
  let s := local_s self S_prov in
  let qr := clamp_negative (map fneg s) in
  let Qr := nansum qr * IZR (self_CellArea self) / IZR (self_CatchmentArea self) in
  let S_ := S_prov + Qr in
  let fsat := IZR (Z.of_nat (length (filter (fun v => fle v (Fin 0)) s))
                   * self_CellArea self) / IZR (self_CatchmentArea self) in
  let mbe := (self_S self - S_) - (R_ - Qb - Qr) in
  run_timestep_frame self R_
  = Ok {| fr_So := self_S self; fr_Qb := Qb; fr_S_prov := S_prov; fr_s := s;
          fr_Qr := Qr; fr_S := S_; fr_fsat := fsat; fr_mbe := mbe;
          fr_results := [ ("baseflow"%string, Qb * 1000);
                          ("water_closure"%string, mbe * 1000);
                          ("saturated_area"%string, S_) ];
          fr_self := set_S (set_qr self qr) S_ |}.
Proof.
  intros HM HA. cbv zeta. unfold run_timestep_frame.
  rewrite (subsurfaceflow_ok _ HM). cbn [bind].
  assert (HA' : IZR (self_CatchmentArea self) <> 0)
    by (intros E; apply HA; now apply eq_IZR_R0).
  cbn [set_qr set_S self_qr self_CellArea self_CatchmentArea self_S].
  rewrite (np_truediv_ok _ _ HA'). cbn [bind].
  rewrite (py_truediv_ok _ _ HA). cbn [bind].
  reflexivity.
Qed.

(** ** One timestep *)

(** The frame of the step of [self] with recharge [R_], as equation [E]. *)
Ltac frame_eq self R_ HM HA E :=
  pose proof (run_timestep_frame_ok self R_ HM HA) as E; cbv zeta in E.

Lemma local_s_cell (self : Topmodel_Homogenous) (Smean x : R) :
  fadd (Fin Smean) (fmul (Fin (self_M self)) (fsub (Fin (self_X self)) (Fin x)))
  = Fin (Smean + self_M self * (self_X self - x)).
Proof. reflexivity. Qed.

Lemma returnflow_cell_clamp (self : Topmodel_Homogenous) (S_prov : R) (x : float) :
  (let v := fneg (fadd (Fin S_prov)
                       (fmul (Fin (self_M self)) (fsub (Fin (self_X self)) x))) in
   if flt v (Fin 0) then Fin 0 else v)
  = returnflow_cell self S_prov x.
Proof.
  destruct x as [|x]; cbn; [reflexivity|].
  unfold Rmax, rlt.
  destruct (Rlt_dec _ 0), (Rle_dec 0 _); try reflexivity; lra.
Qed.

Lemma returnflow_field (self : Topmodel_Homogenous) (S_prov : R) :
  clamp_negative (map fneg (local_s self S_prov))
  = map (returnflow_cell self S_prov) (self_xi self).
Proof.
  unfold clamp_negative, local_s. rewrite !map_map.
  apply map_ext. intros x. apply returnflow_cell_clamp.
Qed.

Lemma returnflow_sum (self : Topmodel_Homogenous) (S_prov : R) (xi : list float) :
  nansum (map (returnflow_cell self S_prov) xi) * IZR (self_CellArea self)
  = returnflow_area_sum self S_prov xi.
Proof.
  induction xi as [|[|x] t IH]; cbn [map returnflow_cell nansum returnflow_area_sum].
  - ring.
  - exact IH.
  - rewrite <- IH. ring.
Qed.

(** C1.  Whenever neither divisor is zero, a call of run_timestep returns,
    and it has computed, in this order: the baseflow from the state held
    before the call, Qb = Qo*exp(-S_prev/(M + eps)); the provisional state
    S' = S_prev + Qb - R; the return-flow field max(0, -(S' + M*(X - xi_i)))
    on the cells that carry an index; Qr as the cell-area-weighted sum of
    that field divided by the catchment area; and the committed state
    S = S' + Qr.  Nothing else of the object changes. *)
Theorem run_timestep_order (self : Topmodel_Homogenous) (R_ : R) :
  self_M self + eps <> 0 ->
  self_CatchmentArea self <> 0%Z ->
  exists fr,
    run_timestep_frame self R_ = Ok fr /\
    run_timestep self R_ = Ok (fr_self fr, fr_results fr) /\
    fr_So fr = self_S self /\
    fr_Qb fr = self_Qo self * exp (- fr_So fr / (self_M self + eps)) /\
    fr_S_prov fr = fr_So fr + fr_Qb fr - R_ /\
    self_qr (fr_self fr) = map (returnflow_cell self (fr_S_prov fr)) (self_xi self) /\
    fr_Qr fr = returnflow_area_sum self (fr_S_prov fr) (self_xi self)
               / IZR (self_CatchmentArea self) /\
    self_S (fr_self fr) = fr_S_prov fr + fr_Qr fr /\
    fr_self fr = set_S (set_qr self (self_qr (fr_self fr))) (self_S (fr_self fr)).
Proof.
  intros HM HA.
  frame_eq self R_ HM HA E.
  eexists. split; [exact E|].
  unfold run_timestep. rewrite E. cbn [bind fr_self fr_results fr_So fr_Qb fr_S_prov fr_Qr].
  cbn [set_S set_qr self_qr self_S].
  repeat split.
  - apply returnflow_field.
  - rewrite returnflow_field, returnflow_sum. reflexivity.
Qed.

Lemma run_timestep_inv (self : Topmodel_Homogenous) (R_ : R) out :
  run_timestep self R_ = Ok out ->
  self_M self + eps <> 0 /\ self_CatchmentArea self <> 0%Z.
Proof.
  unfold run_timestep, run_timestep_frame, subsurfaceflow, np_truediv, py_truediv.
  intros H. split.
  - intros E. rewrite (req_true _ _ E) in H. discriminate H.
  - intros E. destruct (req (self_M self + eps) 0); [discriminate H|].
    cbn [bind set_S set_qr self_CatchmentArea self_CellArea self_qr] in H.
    rewrite E in H. rewrite (req_true (IZR 0) 0 eq_refl) in H. discriminate H.
Qed.

Lemma state_of_refl (self : Topmodel_Homogenous) : state_of self self.
Proof. destruct self. reflexivity. Qed.

Lemma state_of_step (self0 self : Topmodel_Homogenous) (qr : list float) (v : R) :
  state_of self0 self -> state_of self0 (set_S (set_qr self qr) v).
Proof. unfold state_of. intros ->. reflexivity. Qed.

Lemma state_of_constants (self0 self : Topmodel_Homogenous) :
  state_of self0 self ->
  self_M self = self_M self0 /\
  self_X self = self_X self0 /\
  self_xi self = self_xi self0 /\
  self_Qo self = self_Qo self0 /\
  self_CellArea self = self_CellArea self0 /\
  self_CatchmentArea self = self_CatchmentArea self0.
Proof. unfold state_of. intros ->. cbn. repeat split. Qed.

(** A run of any length returns, and stays a state of the object it
    started from. *)
Lemma run_steps_ok (Rs : list R) :
  forall self : Topmodel_Homogenous,
    self_M self + eps <> 0 ->
    self_CatchmentArea self <> 0%Z ->
    exists self' outs,
      run_steps self Rs = Ok (self', outs) /\
      state_of self self' /\
      length outs = length Rs /\
      Forall (fun d => dict_get "water_closure" d = Some 0) outs.
Proof.
  induction Rs as [|R_ t IH]; intros self HM HA.
  - exists self, []. cbn. repeat split; [apply state_of_refl | constructor].
  - frame_eq self R_ HM HA E.
    cbn [run_steps]. unfold run_timestep. rewrite E.
    cbn [bind fr_self fr_results fst snd].
    set (self1 := set_S _ _).
    destruct (IH self1) as (self' & outs & Hrun & Hst & Hlen & Hall);
      [exact HM | exact HA |].
    rewrite Hrun. cbn [bind fst snd].
    eexists _, _. split; [reflexivity|]. split; [|split].
    + unfold state_of in *. rewrite Hst at 1. reflexivity.
    + cbn. now rewrite Hlen.
    + constructor; [|exact Hall]. cbn. f_equal. lra.
Qed.

(** C2.  From every state and for every sequence of recharge values, of any
    sign, each call returns with a mass-balance residual
    (S_prev - S_new) - (R - Qb - Qr) that is zero in real arithmetic, and
    every returned dict carries a zero 'water_closure'. *)
Theorem mass_balance_closes (self : Topmodel_Homogenous) (Rs : list R) :
  self_M self + eps <> 0 ->
  self_CatchmentArea self <> 0%Z ->
  (forall R_, exists fr,
      run_timestep_frame self R_ = Ok fr /\
      fr_mbe fr = (self_S self - self_S (fr_self fr)) - (R_ - fr_Qb fr - fr_Qr fr) /\
      fr_mbe fr = 0) /\
  exists self' outs,
    run_steps self Rs = Ok (self', outs) /\
    length outs = length Rs /\
    Forall (fun d => dict_get "water_closure" d = Some 0) outs.
Proof.
  intros HM HA. split.
  - intros R_.
    frame_eq self R_ HM HA E.
    eexists. split; [exact E|]. cbn. split; [reflexivity | lra].
  - destruct (run_steps_ok Rs self HM HA) as (self' & outs & H1 & _ & H2 & H3).
    now exists self', outs.
Qed.

(** C5.  The dict that run_timestep returns has exactly the three keys
    'baseflow', 'water_closure' and 'saturated_area': the first is Qb times
    1e3, the second the residual times 1e3, and the third is the updated
    deficit self.S, in meters, whatever the saturated fraction fsat of the
    step is.  fsat and the return-flow field qr are computed by the step
    (qr is kept on the object) and are not in the dict. *)
Theorem returned_record (self : Topmodel_Homogenous) (R_ : R) :
  self_M self + eps <> 0 ->
  self_CatchmentArea self <> 0%Z ->
  exists fr,
    run_timestep_frame self R_ = Ok fr /\
    run_timestep self R_ = Ok (fr_self fr, fr_results fr) /\
    fr_results fr = [ ("baseflow"%string, fr_Qb fr * 1000);
                      ("water_closure"%string, fr_mbe fr * 1000);
                      ("saturated_area"%string, self_S (fr_self fr)) ] /\
    map fst (fr_results fr)
      = [ "baseflow"%string; "water_closure"%string; "saturated_area"%string ] /\
    dict_get "saturated_area" (fr_results fr) = Some (self_S (fr_self fr)) /\
    (fr_fsat fr <> self_S (fr_self fr) ->
     dict_get "saturated_area" (fr_results fr) <> Some (fr_fsat fr)) /\
    fr_fsat fr = IZR (Z.of_nat (count_saturated (fr_s fr)) * self_CellArea self)
                 / IZR (self_CatchmentArea self) /\
    self_qr (fr_self fr) = clamp_negative (map fneg (fr_s fr)) /\
    dict_get "fsat" (fr_results fr) = None /\
    dict_get "qr" (fr_results fr) = None.
Proof.
  intros HM HA.
  frame_eq self R_ HM HA E.
  eexists. split; [exact E|].
  unfold run_timestep. rewrite E. cbn.
  repeat split.
  intros Hne Heq. apply Hne. now injection Heq.
Qed.


(** ** The constructor *)

Lemma init_inv percentile (pp : params) (S_initial : option R) (outputs : bool)
      (self : Topmodel_Homogenous) :
  init percentile pp S_initial outputs = Ok self ->
  exists xi0 clim,
    unclamped_xi pp = Ok xi0 /\
    cutoff percentile pp xi0 = Ok clim /\
    self_xi self = clamp_above clim xi0 /\
    self_CellArea self = (Z.of_nat (length (pp_grid pp)) * 16)%Z /\
    self_CatchmentArea self
      = (Z.of_nat (count_active (concat (pp_grid pp))) * self_CellArea self)%Z /\
    self_CatchmentArea self <> 0%Z /\
    self_X self = 1 / IZR (self_CatchmentArea self)
                  * nansum (map (fun v => fmul v (Fin (IZR (self_CellArea self))))
                                (self_xi self)) /\
    self_M self = pp_m pp /\
    self_To self = pp_ko pp * pp_dt pp /\
    self_Qo self = self_To self * exp (- self_X self) /\
    nanmean (clamp_negative (local_s self (effective_S_initial pp S_initial)))
      = Ok (self_S self).
Proof.
  unfold init. intros H.
  destruct (unclamped_xi pp) as [xi0| |] eqn:Hxi; cbn [bind] in H; try discriminate H.
  destruct (cutoff percentile pp xi0) as [clim| |] eqn:Hclim; cbn [bind] in H;
    try discriminate H.
  unfold py_truediv in H.
  destruct (Z.eqb_spec (Z.of_nat (count_active (concat (pp_grid pp)))
                        * (Z.of_nat (length (pp_grid pp)) * 16)) 0) as [E|E];
    cbn [bind] in H; try discriminate H.
  match type of H with
  | bind (nanmean ?s) _ = _ => destruct (nanmean s) as [S_| |] eqn:HS
  end; cbn [bind] in H; try discriminate H.
  injection H as <-.
  exists xi0, clim. cbn. repeat split; try assumption.
Qed.

Lemma concat_nonempty {A : Type} (g : list (list A)) :
  concat g <> [] -> (0 < length g)%nat.
Proof. destruct g; cbn; [congruence | lia]. Qed.

Lemma radians_range (s : R) : 0 <= s < 90 -> 0 <= radians s < PI / 2.
Proof.
  intros [H0 H90]. unfold radians. pose proof PI_RGT_0 as HP. split.
  - apply Rmult_le_pos; lra.
  - replace (PI / 2) with (90 * (PI / 180)) by field.
    apply Rmult_lt_compat_r; lra.
Qed.

Lemma tan_nonneg (x : R) : 0 <= x < PI / 2 -> 0 <= tan x.
Proof.
  intros [[H|H] H2].
  - left. now apply tan_gt_0.
  - subst x. rewrite tan_0. lra.
Qed.

Lemma cos_nonzero (x : R) : 0 <= x < PI / 2 -> cos x <> 0.
Proof.
  intros [H H2]. pose proof PI_RGT_0.
  assert (0 < cos x) by (apply cos_gt_0; lra). lra.
Qed.

(** On a valid cell the index is a number exactly where the mask is 1. *)
Lemma wetness_index_valid (dx : R) (c : cell) :
  0 < dx ->
  valid_cell c ->
  exists x,
    wetness_index dx (fmul (flowacc c) (cmask c)) (fmul (slope c) (cmask c)) = Ok x /\
    indexed c x.
Proof.
  intros Hdx [HN | (H1 & f & s & Hf & Hs & Hfpos & Hsr)].
  - exists NaN. unfold indexed. rewrite HN.
    destruct (flowacc c), (slope c); cbn; split; reflexivity.
  - unfold indexed. rewrite H1, Hf, Hs. cbn [fmul lift2 wetness_index feq].
    rewrite (req_true 1 1 eq_refl).
    replace (s * 1) with s by ring.
    pose proof (radians_range s Hsr) as Hr.
    pose proof (tan_nonneg _ Hr) as Ht.
    pose proof (cos_nonzero _ Hr) as Hc.
    pose proof eps_pos as He.
    rewrite (req_false dx 0) by lra.
    rewrite (req_false _ 0 Hc).
    rewrite (req_false (tan (radians s) + eps) 0) by lra.
    cbn [orb].
    assert (Hq : 0 < f * 1 / dx / (tan (radians s) + eps)).
    { apply Rdiv_lt_0_compat; [apply Rdiv_lt_0_compat|]; lra. }
    rewrite (rlt_false _ 0) by lra.
    rewrite (req_false _ 0) by lra.
    eexists. split; [reflexivity | eexists; reflexivity].
Qed.

Lemma combine_map {A B C : Type} (f : A -> B) (g : A -> C) (l : list A) :
  combine (map f l) (map g l) = map (fun x => (f x, g x)) l.
Proof. induction l; cbn; congruence. Qed.

Lemma unclamped_xi_cells (pp : params) :
  unclamped_xi pp
  = mapM (fun c => wetness_index (sqrt (IZR (Z.of_nat (length (pp_grid pp)) * 16)))
                                 (fmul (flowacc c) (cmask c))
                                 (fmul (slope c) (cmask c)))
         (concat (pp_grid pp)).
Proof.
  unfold unclamped_xi. rewrite combine_map.
  induction (concat (pp_grid pp)) as [|c t IH]; cbn [map mapM fst snd];
    [reflexivity | now rewrite IH].
Qed.

Lemma mapM_indexed (dx : R) (cells : list cell) :
  0 < dx ->
  Forall valid_cell cells ->
  exists xi0,
    mapM (fun c => wetness_index dx (fmul (flowacc c) (cmask c))
                                 (fmul (slope c) (cmask c))) cells = Ok xi0 /\
    Forall2 indexed cells xi0.
Proof.
  intros Hdx Hv. induction Hv as [|c t Hc Ht IH].
  - exists []. split; [reflexivity | constructor].
  - destruct IH as (xs & E & F).
    destruct (wetness_index_valid dx c Hdx Hc) as (x & Ex & Ix).
    exists (x :: xs). cbn [mapM]. rewrite Ex, E. cbn [bind].
    split; [reflexivity | now constructor].
Qed.

Lemma unclamped_xi_valid (pp : params) :
  valid_topography pp ->
  exists xi0, unclamped_xi pp = Ok xi0 /\ Forall2 indexed (concat (pp_grid pp)) xi0.
Proof.
  intros Hv. rewrite unclamped_xi_cells.
  destruct (concat (pp_grid pp)) as [|c t] eqn:Ec.
  - exists []. split; [reflexivity | constructor].
  - rewrite <- Ec in *. apply mapM_indexed; [|exact Hv].
    assert (0 < length (pp_grid pp))%nat
      by (apply concat_nonempty; rewrite Ec; discriminate).
    apply sqrt_lt_R0. apply IZR_lt. lia.
Qed.

Lemma clamp_above_indexed (clim : float) (cells : list cell) (xi : list float) :
  Forall2 indexed cells xi -> Forall2 indexed cells (clamp_above clim xi).
Proof.
  induction 1 as [|c x cs xs Hcx _ IH]; cbn; constructor; [|exact IH].
  unfold indexed in *. destruct (feq (cmask c) (Fin 1)).
  - destruct Hcx as (r & ->). destruct clim as [|k]; cbn.
    + now exists r.
    + destruct (rlt k r); eexists; reflexivity.
  - subst x. destruct clim; reflexivity.
Qed.

Lemma indexed_count (cells : list cell) (xi : list float) :
  Forall2 indexed cells xi -> count_valid xi = count_active cells.
Proof.
  unfold count_active.
  induction 1 as [|c x cs xs Hcx _ IH]; cbn [count_valid filter length]; [reflexivity|].
  unfold indexed in Hcx. destruct (feq (cmask c) (Fin 1)).
  - destruct Hcx as (r & ->). cbn. now rewrite IH.
  - subst x. exact IH.
Qed.

Lemma local_s_indexed (self : Topmodel_Homogenous) (Smean : R) (cells : list cell) :
  Forall2 indexed cells (self_xi self) ->
  Forall2 indexed cells (local_s self Smean).
Proof.
  unfold local_s. induction 1 as [|c x cs xs Hcx _ IH]; cbn [map]; constructor;
    [|exact IH].
  unfold indexed in *. destruct (feq (cmask c) (Fin 1)).
  - destruct Hcx as (r & ->). eexists. reflexivity.
  - now subst x.
Qed.

(** An object built on a valid topography is consistent, and its index
    field follows the mask. *)
Lemma init_consistent percentile (pp : params) (S_initial : option R)
      (outputs : bool) (self : Topmodel_Homogenous) :
  init percentile pp S_initial outputs = Ok self ->
  valid_topography pp ->
  consistent self /\
  Forall2 indexed (concat (pp_grid pp)) (self_xi self) /\
  count_valid (self_xi self) = count_active (concat (pp_grid pp)).
Proof.
  intros Hi Hv.
  destruct (init_inv _ _ _ _ _ Hi)
    as (xi0 & clim & Hxi0 & _ & Hxi & HCA & HCat & Hnz & HX & _).
  destruct (unclamped_xi_valid pp Hv) as (xi0' & Hxi0' & Hidx).
  rewrite Hxi0 in Hxi0'. injection Hxi0' as <-.
  assert (Hidx' : Forall2 indexed (concat (pp_grid pp)) (self_xi self))
    by (rewrite Hxi; now apply clamp_above_indexed).
  pose proof (indexed_count _ _ Hidx') as Hcount.
  split; [|split; assumption].
  unfold consistent. rewrite Hcount.
  assert (self_CellArea self <> 0%Z /\ count_active (concat (pp_grid pp)) <> O)
    as [Hc Hn].
  { split; intros E; apply Hnz; rewrite HCat, E; lia. }
  repeat split.
  - rewrite HCA in *. lia.
  - lia.
  - exact HCat.
  - rewrite HX at 1. field. intros E. apply Hnz. now apply eq_IZR_R0.
Qed.

(** ** Area-weighted sums *)

Lemma count_valid_local_s (self : Topmodel_Homogenous) (Smean : R) :
  count_valid (local_s self Smean) = count_valid (self_xi self).
Proof.
  unfold local_s. set (g := fun x : float => _).
  induction (self_xi self) as [|[|x] t IH]; cbn [map count_valid];
    [reflexivity | exact IH |].
  change (g (Fin x)) with (Fin (Smean + self_M self * (self_X self - x))).
  cbn [count_valid]. now rewrite IH.
Qed.

(** The weighted sum of a local deficit field, in terms of the weighted sum
    of the index field. *)
Lemma nansum_local_s (self : Topmodel_Homogenous) (Smean A : R) :
  nansum (map (fun v => fmul v (Fin A)) (local_s self Smean))
  = (Smean + self_M self * self_X self) * A * INR (count_valid (self_xi self))
    - self_M self * nansum (map (fun v => fmul v (Fin A)) (self_xi self)).
Proof.
  unfold local_s. set (w := fun v : float => fmul v (Fin A)).
  set (g := fun x : float => fadd _ _).
  induction (self_xi self) as [|[|x] t IH]; cbn [map].
  - cbn. ring.
  - change (w (g NaN)) with NaN. change (w NaN) with NaN.
    cbn [nansum count_valid]. exact IH.
  - change (w (g (Fin x)))
      with (Fin ((Smean + self_M self * (self_X self - x)) * A)).
    change (w (Fin x)) with (Fin (x * A)).
    cbn [nansum count_valid]. rewrite IH, S_INR. ring.
Qed.

Lemma IZR_catchment (self : Topmodel_Homogenous) :
  consistent self ->
  IZR (self_CatchmentArea self)
  = INR (count_valid (self_xi self)) * IZR (self_CellArea self) /\
  0 < IZR (self_CellArea self) /\
  0 < INR (count_valid (self_xi self)) /\
  0 < IZR (self_CatchmentArea self).
Proof.
  intros (HA & Hn & HC & _).
  assert (E : IZR (self_CatchmentArea self)
              = INR (count_valid (self_xi self)) * IZR (self_CellArea self))
    by (rewrite HC, mult_IZR, <- INR_IZR_INZ; reflexivity).
  assert (0 < IZR (self_CellArea self)) by (now apply IZR_lt).
  assert (0 < INR (count_valid (self_xi self))) by (now apply lt_0_INR).
  repeat split; try assumption.
  rewrite E. now apply Rmult_lt_0_compat.
Qed.

(** The mean of a local deficit field over the cells that carry an index. *)
Lemma local_s_mean (self : Topmodel_Homogenous) (Smean : R) :
  consistent self ->
  nansum (map (fun v => fmul v (Fin (IZR (self_CellArea self)))) (local_s self Smean))
  / IZR (self_CatchmentArea self) = Smean.
Proof.
  intros Hc. destruct (IZR_catchment self Hc) as (E & HA & Hn & HC).
  destruct Hc as (_ & _ & _ & HX).
  rewrite nansum_local_s, <- HX, E. field. lra.
Qed.

(** On a field that follows the mask, the sum over the active cells is the
    NaN-skipping sum. *)
Lemma active_area_sum_indexed (A : R) (cells : list cell) (field : list float) :
  Forall2 indexed cells field ->
  active_area_sum A cells field = Fin (nansum (map (fun v => fmul v (Fin A)) field)).
Proof.
  induction 1 as [|c x cs xs Hcx _ IH]; cbn [active_area_sum map nansum];
    [reflexivity|].
  unfold indexed in Hcx. destruct (feq (cmask c) (Fin 1)).
  - destruct Hcx as (r & ->). rewrite IH. reflexivity.
  - subst x. rewrite IH. reflexivity.
Qed.

(** C3.  On a valid topography (the constructor returned an object, so at
    least one cell is active), for every scalar Smean, the cell-area-weighted
    average of local_s(Smean) over the active cells is Smean; it is also
    what the NaN-skipping reduction of the code gives; and X is that same
    average of the clamped index field xi. *)
Theorem local_deficit_mean percentile (pp : params) (S_initial : option R)
        (outputs : bool) (self : Topmodel_Homogenous) (Smean : R) :
  init percentile pp S_initial outputs = Ok self ->
  valid_topography pp ->
  active_mean pp self (local_s self Smean) = Fin Smean /\
  nansum (map (fun v => fmul v (Fin (IZR (self_CellArea self)))) (local_s self Smean))
    / IZR (self_CatchmentArea self) = Smean /\
  active_mean pp self (self_xi self) = Fin (self_X self).
Proof.
  intros Hi Hv.
  destruct (init_consistent _ _ _ _ _ Hi Hv) as (Hc & Hidx & _).
  pose proof (local_s_mean self Smean Hc) as Hm.
  split; [|split].
  - unfold active_mean.
    rewrite (active_area_sum_indexed _ _ _ (local_s_indexed self Smean _ Hidx)).
    cbn [lift1]. now rewrite Hm.
  - exact Hm.
  - unfold active_mean. rewrite (active_area_sum_indexed _ _ _ Hidx). cbn [lift1].
    destruct (IZR_catchment self Hc) as (_ & _ & _ & HC).
    destruct Hc as (_ & _ & _ & HX). rewrite <- HX. f_equal. field. lra.
Qed.

Lemma count_valid_clamp_negative (s : list float) :
  count_valid (clamp_negative s) = count_valid s.
Proof.
  unfold clamp_negative. set (g := fun v : float => _).
  induction s as [|[|x] t IH]; cbn [map].
  - reflexivity.
  - change (g NaN) with NaN. exact IH.
  - change (g (Fin x)) with (if rlt x 0 then Fin 0 else Fin x).
    destruct (rlt x 0); cbn [count_valid]; now rewrite IH.
Qed.

(** On a valid topography with an active cell the constructor returns an
    object as soon as np.percentile returns a cutoff. *)
Lemma init_returns percentile (pp : params) (S_initial : option R) (outputs : bool) :
  valid_topography pp ->
  (0 < count_active (concat (pp_grid pp)))%nat ->
  (forall xi0, unclamped_xi pp = Ok xi0 ->
               exists clim, cutoff percentile pp xi0 = Ok clim) ->
  exists self, init percentile pp S_initial outputs = Ok self.
Proof.
  intros Hv Hn Hp.
  destruct (unclamped_xi_valid pp Hv) as (xi0 & Hxi0 & Hidx).
  destruct (Hp xi0 Hxi0) as (clim & Hclim).
  assert (Hg : (0 < length (pp_grid pp))%nat).
  { apply concat_nonempty. intros E. rewrite E in Hn. cbn in Hn. lia. }
  unfold init. rewrite Hxi0. cbn [bind]. rewrite Hclim. cbn [bind].
  rewrite py_truediv_ok by lia. cbn [bind].
  match goal with
  | |- exists _, bind (nanmean ?s) _ = _ => assert (Hc : count_valid s = count_active (concat (pp_grid pp)))
  end.
  { rewrite count_valid_clamp_negative, count_valid_local_s. cbn [self_xi].
    apply indexed_count. now apply clamp_above_indexed. }
  unfold nanmean. rewrite Hc.
  destruct (count_active (concat (pp_grid pp))) as [|k]; [lia|].
  cbn [bind]. eexists. reflexivity.
Qed.

(** ** Return flow and the sign of the state *)

Lemma returnflow_area_sum_nonneg (self : Topmodel_Homogenous) (S_prov : R)
      (xi : list float) :
  0 <= IZR (self_CellArea self) -> 0 <= returnflow_area_sum self S_prov xi.
Proof.
  intros HA. induction xi as [|[|x] t IH]; cbn [returnflow_area_sum];
    [lra | exact IH |].
  pose proof (Rmax_l 0 (- (S_prov + self_M self * (self_X self - x)))).
  set (q := Rmax 0 _) in *. nra.
Qed.

Lemma consistent_state_of (self0 self : Topmodel_Homogenous) :
  state_of self0 self -> consistent self0 -> consistent self.
Proof. unfold state_of. intros -> H. exact H. Qed.

Lemma consistent_nonzero (self : Topmodel_Homogenous) :
  consistent self -> self_CatchmentArea self <> 0%Z.
Proof.
  intros Hc E. destruct (IZR_catchment self Hc) as (_ & _ & _ & HC).
  rewrite E in HC. lra.
Qed.


Lemma state_of_trans (a b c : Topmodel_Homogenous) :
  state_of a b -> state_of b c -> state_of a c.
Proof. unfold state_of. intros Hab Hbc. rewrite Hbc, Hab at 1. reflexivity. Qed.

Lemma nansum_clamp_negative_nonneg (s : list float) :
  0 <= nansum (clamp_negative s).
Proof.
  unfold clamp_negative. set (g := fun v : float => _).
  induction s as [|[|x] t IH]; cbn [map].
  - cbn. lra.
  - change (g NaN) with NaN. exact IH.
  - change (g (Fin x)) with (if rlt x 0 then Fin 0 else Fin x).
    unfold rlt. destruct (Rlt_dec x 0); cbn [nansum]; lra.
Qed.

Lemma nanmean_clamp_nonneg (s : list float) (v : R) :
  nanmean (clamp_negative s) = Ok v -> 0 <= v.
Proof.
  unfold nanmean. destruct (count_valid (clamp_negative s)) as [|n] eqn:En;
    [discriminate|].
  intros H. injection H as <-.
  apply Rmult_le_pos; [apply nansum_clamp_negative_nonneg|].
  left. apply Rinv_0_lt_compat. change (0 < INR (S n)). apply lt_0_INR. lia.
Qed.


(** ** Saturated fraction *)

Lemma count_saturated_le_valid (s : list float) :
  (count_saturated s <= count_valid s)%nat.
Proof.
  unfold count_saturated.
  induction s as [|[|x] t IH]; cbn [filter fle length count_valid]; [lia | exact IH |].
  destruct (rle x 0); cbn [length]; lia.
Qed.

Lemma count_saturated_all (cells : list cell) (s : list float) :
  Forall2 indexed cells s ->
  Forall2 (fun c v => feq (cmask c) (Fin 1) = true -> fle v (Fin 0) = true) cells s ->
  count_saturated s = count_valid s.
Proof.
  unfold count_saturated.
  induction 1 as [|c x cs xs Hcx _ IH]; intros Hall; [reflexivity|].
  inversion Hall as [|? ? ? ? Hx Hrest]; subst.
  unfold indexed in Hcx. destruct (feq (cmask c) (Fin 1)).
  - destruct Hcx as (r & ->). cbn [filter]. rewrite (Hx eq_refl).
    cbn [length count_valid]. now rewrite IH.
  - subst x. cbn [filter fle count_valid]. now apply IH.
Qed.

Lemma count_saturated_none (cells : list cell) (s : list float) :
  Forall2 indexed cells s ->
  Forall2 (fun c v => feq (cmask c) (Fin 1) = true -> fle v (Fin 0) = false) cells s ->
  count_saturated s = O.
Proof.
  unfold count_saturated.
  induction 1 as [|c x cs xs Hcx _ IH]; intros Hall; [reflexivity|].
  inversion Hall as [|? ? ? ? Hx Hrest]; subst.
  unfold indexed in Hcx. destruct (feq (cmask c) (Fin 1)).
  - cbn [filter]. rewrite (Hx eq_refl). now apply IH.
  - subst x. cbn [filter fle]. now apply IH.
Qed.

(** C9.  On a valid topography, from every state and for every recharge,
    the saturated fraction of the step is the number of cells whose local
    deficit from the provisional state S' is <= 0 divided by the number of
    active cells; it lies in [0, 1], is 1 when every active cell has a local
    deficit <= 0 and 0 when no active cell has. *)
Theorem saturated_fraction_bounds percentile (pp : params) (S_initial : option R)
        (outputs : bool) (self self1 : Topmodel_Homogenous) (R_ : R) :
  init percentile pp S_initial outputs = Ok self ->
  valid_topography pp ->
  pp_m pp + eps <> 0 ->
  state_of self self1 ->
  exists fr,
    run_timestep_frame self1 R_ = Ok fr /\
    fr_s fr = local_s self (fr_S_prov fr) /\
    fr_fsat fr = INR (count_saturated (fr_s fr))
                 / INR (count_active (concat (pp_grid pp))) /\
    0 <= fr_fsat fr <= 1 /\
    (Forall2 (fun c v => feq (cmask c) (Fin 1) = true -> fle v (Fin 0) = true)
             (concat (pp_grid pp)) (fr_s fr) ->
     fr_fsat fr = 1) /\
    (Forall2 (fun c v => feq (cmask c) (Fin 1) = true -> fle v (Fin 0) = false)
             (concat (pp_grid pp)) (fr_s fr) ->
     fr_fsat fr = 0).
Proof.
  intros Hi Hv HM Hst.
  destruct (init_consistent _ _ _ _ _ Hi Hv) as (Hc & Hidx & Hcount).
  destruct (init_inv _ _ _ _ _ Hi)
    as (xi0 & clim & _ & _ & _ & _ & _ & _ & _ & HMeq & _).
  rewrite <- HMeq in HM.
  pose proof (consistent_state_of _ _ Hst Hc) as Hc1.
  destruct (state_of_constants _ _ Hst) as (EM & EX & Exi & _ & EA & EC).
  assert (HM1 : self_M self1 + eps <> 0) by (now rewrite EM).
  frame_eq self1 R_ HM1 (consistent_nonzero _ Hc1) E. eexists. split; [exact E|].
  cbn [fr_s fr_S_prov fr_fsat].
  set (Sp := self_S self1 + _ - R_).
  assert (Es : local_s self1 Sp = local_s self Sp)
    by (unfold local_s; now rewrite EM, EX, Exi).
  rewrite Es.
  fold (count_saturated (local_s self Sp)).
  destruct (IZR_catchment self Hc) as (EZ & HA & Hn & HC).
  pose proof (count_saturated_le_valid (local_s self Sp)) as Hle.
  rewrite count_valid_local_s in Hle.
  assert (Hf : IZR (Z.of_nat (count_saturated (local_s self Sp)) * self_CellArea self1)
               / IZR (self_CatchmentArea self1)
               = INR (count_saturated (local_s self Sp))
                 / INR (count_active (concat (pp_grid pp)))).
  { rewrite EA, EC, EZ, mult_IZR, <- INR_IZR_INZ, <- Hcount. field. lra. }
  rewrite Hf, <- Hcount.
  pose proof (local_s_indexed self Sp _ Hidx) as Hsidx.
  split; [reflexivity|]. split; [reflexivity|]. split; [|split].
  - apply le_INR in Hle. pose proof (pos_INR (count_saturated (local_s self Sp))).
    split.
    + apply Rmult_le_pos; [assumption | left; now apply Rinv_0_lt_compat].
    + apply Rmult_le_reg_r with (r := INR (count_valid (self_xi self))); [exact Hn|].
      unfold Rdiv. rewrite Rmult_assoc, Rinv_l by lra. lra.
  - intros Hall. rewrite (count_saturated_all _ _ Hsidx Hall), count_valid_local_s.
    field. lra.
  - intros Hnone. rewrite (count_saturated_none _ _ Hsidx Hnone). cbn. lra.
Qed.

(** ** The cutoff *)

Lemma clamp_above_bound (c : R) (xi : list float) :
  Forall (fun v => forall x, v = Fin x -> x <= c) (clamp_above (Fin c) xi).
Proof.
  unfold clamp_above. apply Forall_forall. intros v Hin x ->.
  apply in_map_iff in Hin. destruct Hin as (u & Hu & _).
  destruct u as [|r]; cbn in Hu; [discriminate|].
  unfold rlt in Hu. destruct (Rlt_dec c r); injection Hu as ->; lra.
Qed.

Lemma run_steps_state (Rs : list R) :
  forall (self self' : Topmodel_Homogenous) outs,
    run_steps self Rs = Ok (self', outs) -> state_of self self'.
Proof.
  induction Rs as [|R_ t IH]; intros self self' outs H.
  - injection H as <- _. apply state_of_refl.
  - cbn [run_steps] in H.
    destruct (run_timestep self R_) as [[self1 res]| |] eqn:E1; cbn [bind] in H;
      try discriminate H.
    destruct (run_timestep_inv _ _ _ E1) as (HM & HA).
    unfold run_timestep in E1.
    frame_eq self R_ HM HA E.
    rewrite E in E1. cbn [bind fr_self fr_results] in E1. injection E1 as <- _.
    cbn [fst] in H.
    match type of H with
    | bind (run_steps ?s t) _ = _ => destruct (run_steps s t) as [[s2 o2]| |] eqn:E2
    end; cbn [bind fst snd] in H; try discriminate H.
    injection H as <- _.
    eapply state_of_trans; [|exact (IH _ _ _ E2)].
    apply state_of_step, state_of_refl.
Qed.

(** C8.  The stored index field is the unclamped field with every value
    above the cutoff replaced by the cutoff, the cutoff being the
    twi_cutoff-th percentile of the strictly positive unclamped values; when
    that percentile is a number, no value of the stored field exceeds it;
    and no later run of timesteps changes the field. *)
Theorem cutoff_enforced percentile (pp : params) (S_initial : option R)
        (outputs : bool) (self : Topmodel_Homogenous) :
  init percentile pp S_initial outputs = Ok self ->
  exists xi0 clim,
    unclamped_xi pp = Ok xi0 /\
    percentile (select_positive xi0) (pp_twi_cutoff pp) = Ok clim /\
    self_xi self = clamp_above clim xi0 /\
    (forall c, clim = Fin c ->
       Forall (fun v => forall x, v = Fin x -> x <= c) (self_xi self)) /\
    (forall Rs self' outs,
       run_steps self Rs = Ok (self', outs) -> self_xi self' = self_xi self).
Proof.
  intros Hi.
  destruct (init_inv _ _ _ _ _ Hi) as (xi0 & clim & Hxi0 & Hcl & Hxi & _).
  exists xi0, clim. repeat split; try assumption.
  - intros c ->. rewrite Hxi. apply clamp_above_bound.
  - intros Rs self' outs Hrun.
    apply run_steps_state in Hrun.
    now destruct (state_of_constants _ _ Hrun) as (_ & _ & -> & _).
Qed.

(** ** Zero active cells, and the S_initial guard *)

Lemma mapM_all_nan (dx : R) (cells : list cell) :
  Forall (fun c => cmask c = NaN) cells ->
  mapM (fun c => wetness_index dx (fmul (flowacc c) (cmask c))
                               (fmul (slope c) (cmask c))) cells
  = Ok (map (fun _ => NaN) cells).
Proof.
  induction 1 as [|c t Hc _ IH]; [reflexivity|].
  cbn [mapM map]. rewrite IH, Hc.
  destruct (flowacc c), (slope c); reflexivity.
Qed.

Lemma select_positive_all_nan {A : Type} (l : list A) :
  select_positive (map (fun _ => NaN) l) = [].
Proof. induction l; cbn; auto. Qed.

Lemma count_active_all_nan (cells : list cell) :
  Forall (fun c => cmask c = NaN) cells -> count_active cells = O.
Proof.
  unfold count_active. induction 1 as [|c t Hc _ IH]; [reflexivity|].
  cbn [filter]. now rewrite Hc.
Qed.

Lemma init_masked_out percentile (pp : params) (S_initial : option R)
      (outputs : bool) :
  Forall (fun c => cmask c = NaN) (concat (pp_grid pp)) ->
  init percentile pp S_initial outputs
  = (clim <- percentile [] (pp_twi_cutoff pp) ;; Raise "ZeroDivisionError").
Proof.
  intros Hnan. unfold init.
  rewrite unclamped_xi_cells, (mapM_all_nan _ _ Hnan). cbn [bind].
  unfold cutoff. rewrite select_positive_all_nan.
  destruct (percentile [] (pp_twi_cutoff pp)); cbn [bind]; try reflexivity.
  rewrite (count_active_all_nan _ Hnan). reflexivity.
Qed.

(** C6, as amended.  With no active cell the constructor returns no object:
    and when the mask is NaN everywhere it ends in the exception that
    np.percentile raises on the empty sample, if it raises one, and otherwise
    in the ZeroDivisionError of 1.0 / self.CatchmentArea. *)
Theorem no_active_cell_fails percentile (pp : params) (S_initial : option R)
        (outputs : bool) :
  count_active (concat (pp_grid pp)) = O ->
  (forall self, init percentile pp S_initial outputs <> Ok self) /\
  (Forall (fun c => cmask c = NaN) (concat (pp_grid pp)) ->
   init percentile pp S_initial outputs
   = (clim <- percentile [] (pp_twi_cutoff pp) ;; Raise "ZeroDivisionError")).
Proof.
  intros H0. split.
  - intros self Hi.
    destruct (init_inv _ _ _ _ _ Hi) as (_ & _ & _ & _ & _ & _ & HC & Hnz & _).
    apply Hnz. rewrite HC, H0. reflexivity.
  - apply init_masked_out.
Qed.

(** C10.  An explicit S_initial of 0.0 is not used: the guard tests its
    truth value, so pp['so'] takes its place and the object is the one built
    without the argument. *)
Theorem falsy_S_initial_replaced percentile (pp : params) (outputs : bool) :
  effective_S_initial pp (Some 0) = pp_so pp /\
  effective_S_initial pp (Some 0) = effective_S_initial pp None /\
  init percentile pp (Some 0) outputs = init percentile pp None outputs.
Proof.
  assert (E : effective_S_initial pp (Some 0) = pp_so pp)
    by (unfold effective_S_initial; now rewrite (req_true 0 0 eq_refl)).
  split; [exact E|]. split; [exact E|].
  unfold init. rewrite E. reflexivity.
Qed.

(** ** The worked inputs, evaluated *)

Lemma sqrt_16 : sqrt (IZR 16) = 4.
Proof. replace (IZR 16) with (4 * 4) by lra. apply sqrt_square. lra. Qed.

Lemma wetness_index_flat (f : R) :
  0 < f ->
  wetness_index (sqrt (IZR 16)) (fmul (Fin f) (Fin 1)) (fmul (Fin 0) (Fin 1))
  = Ok (Fin (ln (f / 4 / eps))).
Proof.
  intros Hf. pose proof eps_pos as He.
  cbn [fmul lift2 wetness_index]. rewrite sqrt_16.
  replace (radians (0 * 1)) with 0 by (unfold radians; ring).
  rewrite cos_0, tan_0.
  rewrite (req_false 4 0), (req_false 1 0), (req_false (0 + eps) 0) by lra.
  cbn [orb].
  assert (Hq : 0 < f * 1 / 4 / (0 + eps)).
  { apply Rdiv_lt_0_compat; [|lra]. lra. }
  rewrite (rlt_false _ 0), (req_false _ 0) by lra.
  do 3 f_equal. field. lra.
Qed.

Lemma example_x1_pos : 0 < example_x1.
Proof.
  unfold example_x1. rewrite <- ln_1. apply ln_increasing; [lra|].
  unfold eps. rewrite Rinv_inv. lra.
Qed.

Lemma ln_2_lt_1 : ln 2 < 1.
Proof.
  apply Rlt_le_trans with (ln (exp 1)); [|rewrite ln_exp; lra].
  apply ln_increasing; [lra|].
  pose proof (exp_ineq1 1). lra.
Qed.

Lemma example_x2_x1 : example_x2 = ln 2 + example_x1.
Proof.
  unfold example_x2, example_x1. pose proof eps_pos.
  unfold Rdiv. apply ln_mult; [lra | now apply Rinv_0_lt_compat].
Qed.

Lemma ln_2_pos : 0 < ln 2.
Proof. rewrite <- ln_1. apply ln_increasing; lra. Qed.

Lemma example_unclamped :
  unclamped_xi example_pp = Ok [Fin example_x1; Fin example_x2; NaN].
Proof.
  rewrite unclamped_xi_cells.
  cbn [example_pp pp_grid concat app length mapM cmask flowacc slope].
  change (Z.of_nat 1 * 16)%Z with 16%Z.
  rewrite !wetness_index_flat by lra. cbn [bind fmul lift2 wetness_index].
  unfold example_x1, example_x2. pose proof eps_pos.
  do 3 f_equal; [|f_equal]; f_equal; field; lra.
Qed.

Lemma example_median :
  np_percentile (Ok NaN) [example_x1; example_x2] 50 = Ok (Fin example_clim).
Proof.
  pose proof example_x1_pos. pose proof ln_2_pos. pose proof example_x2_x1.
  unfold np_percentile.
  rewrite (rlt_false 50 0), (rlt_false 100 50) by lra. cbn [orb].
  cbn [np_sort fold_right insert_sorted].
  rewrite (rle_true example_x1 example_x2) by lra.
  cbn [length Nat.sub INR].
  assert (E : Int_part (50 / 100 * 1) = 0%Z)
    by (symmetry; apply Int_part_spec; cbn; lra).
  rewrite E. cbn [Z.to_nat Nat.add Nat.min nth].
  unfold example_clim. do 2 f_equal. cbn. lra.
Qed.

Lemma example_count_active :
  count_active (concat (pp_grid example_pp)) = 2%nat.
Proof.
  unfold count_active.
  cbn [example_pp pp_grid concat app filter cmask feq].
  rewrite (req_true 1 1 eq_refl). reflexivity.
Qed.

(** The constructor on the worked input. *)
Lemma example_init :
  init (np_percentile (Ok NaN)) example_pp None false = Ok example_self.
Proof.
  pose proof example_x1_pos as H1. pose proof ln_2_pos as H2.
  pose proof ln_2_lt_1 as H3. pose proof example_x2_x1 as H4.
  unfold init. rewrite example_unclamped. cbn [bind].
  unfold cutoff. cbn [select_positive].
  rewrite (rlt_true 0 example_x1), (rlt_true 0 example_x2) by lra.
  change (pp_twi_cutoff example_pp) with 50.
  rewrite example_median. cbn [bind].
  rewrite example_count_active.
  cbn [example_pp pp_grid length].
  change (Z.of_nat 2 * (Z.of_nat 1 * 16))%Z with 32%Z.
  change (Z.of_nat 1 * 16)%Z with 16%Z.
  cbn [py_truediv Z.eqb bind].
  cbn [clamp_above map fgt flt].
  rewrite (rlt_false example_clim example_x1), (rlt_true example_clim example_x2)
    by (unfold example_clim; lra).
  cbn [fmul lift2 nansum].
  cbn [effective_S_initial pp_so pp_m pp_dt pp_ko concat app cmask flowacc slope].
  unfold local_s.
  cbn [self_xi self_M self_X map fadd fsub fmul lift2 clamp_negative flt].
  cbn [example_pp pp_so pp_m pp_dt pp_ko fmul lift2 cmask flowacc slope].
  rewrite !(rlt_false _ 0) by (unfold example_clim; lra).
  unfold nanmean. cbn [count_valid nansum bind]. unfold set_S.
  cbn [self_dt self_CellArea self_CatchmentArea self_qr self_a self_slope self_M
       self_To self_xi self_X self_Qo self_results].
  unfold example_self.
  f_equal. f_equal; cbn [INR]; try lra.
  - repeat f_equal; lra.
  - repeat f_equal; lra.
  - f_equal; [lra | f_equal; lra].
Qed.

Lemma example_valid : valid_topography example_pp.
Proof.
  unfold valid_topography. cbn [example_pp pp_grid concat app].
  repeat apply Forall_cons; [| | |apply Forall_nil].
  - right. split; [reflexivity|]. exists 4, 0. cbn. repeat split; try reflexivity; lra.
  - right. split; [reflexivity|]. exists 8, 0. cbn. repeat split; try reflexivity; lra.
  - left. reflexivity.
Qed.

Lemma example_depth : self_M example_self + eps <> 0.
Proof. pose proof eps_pos. cbn. lra. Qed.

Lemma example_area : self_CatchmentArea example_self <> 0%Z.
Proof. cbn. discriminate. Qed.

Lemma masked_out_all_nan :
  Forall (fun c => cmask c = NaN) (concat (pp_grid masked_out_pp)).
Proof. cbn. repeat constructor. Qed.

Lemma np_percentile_empty (on_empty : result float) (q : R) :
  0 <= q <= 100 -> np_percentile on_empty [] q = on_empty.
Proof.
  intros [H0 H1]. unfold np_percentile.
  rewrite (rlt_false q 0), (rlt_false 100 q) by lra. reflexivity.
Qed.

Lemma np_percentile_returns (a : list R) (q : R) :
  0 <= q <= 100 -> exists clim, np_percentile (Ok NaN) a q = Ok clim.
Proof.
  intros [H0 H1]. unfold np_percentile.
  rewrite (rlt_false q 0), (rlt_false 100 q) by lra. cbn [orb].
  destruct (np_sort a); eexists; reflexivity.
Qed.

(** ** The properties at the worked inputs *)

Lemma run_timestep_order_witness :
  self_M example_self + eps <> 0 /\
  self_CatchmentArea example_self <> 0%Z /\
  exists fr,
    run_timestep_frame example_self (1 / 1000) = Ok fr /\
    fr_S_prov fr = self_S example_self + fr_Qb fr - 1 / 1000 /\
    self_S (fr_self fr) = fr_S_prov fr + fr_Qr fr.
Proof.
  split; [exact example_depth|]. split; [exact example_area|].
  destruct (run_timestep_order example_self (1 / 1000) example_depth example_area)
    as (fr & H1 & _ & H3 & _ & H5 & _ & _ & H8 & _).
  exists fr. rewrite <- H3. repeat split; assumption.
Defined.

Lemma mass_balance_closes_witness :
  self_M example_self + eps <> 0 /\
  self_CatchmentArea example_self <> 0%Z /\
  exists self' outs,
    run_steps example_self [0; 1 / 1000; - (1 / 1000)] = Ok (self', outs) /\
    length outs = 3%nat /\
    Forall (fun d => dict_get "water_closure" d = Some 0) outs.
Proof.
  split; [exact example_depth|]. split; [exact example_area|].
  exact (proj2 (mass_balance_closes example_self [0; 1 / 1000; - (1 / 1000)]
                  example_depth example_area)).
Defined.

Lemma local_deficit_mean_witness :
  init (np_percentile (Ok NaN)) example_pp None false = Ok example_self /\
  valid_topography example_pp /\
  active_mean example_pp example_self (local_s example_self (1 / 10)) = Fin (1 / 10).
Proof.
  split; [exact example_init|]. split; [exact example_valid|].
  exact (proj1 (local_deficit_mean _ _ _ _ _ (1 / 10) example_init example_valid)).
Defined.


Lemma returned_record_witness :
  self_M example_self + eps <> 0 /\
  self_CatchmentArea example_self <> 0%Z /\
  exists fr,
    run_timestep example_self 0 = Ok (fr_self fr, fr_results fr) /\
    map fst (fr_results fr)
      = [ "baseflow"%string; "water_closure"%string; "saturated_area"%string ] /\
    dict_get "saturated_area" (fr_results fr) = Some (self_S (fr_self fr)).
Proof.
  split; [exact example_depth|]. split; [exact example_area|].
  destruct (returned_record example_self 0 example_depth example_area)
    as (fr & _ & H2 & _ & H4 & H5 & _).
  exists fr. repeat split; assumption.
Defined.

Lemma no_active_cell_fails_witness :
  count_active (concat (pp_grid masked_out_pp)) = O /\
  forall self, init (np_percentile (Ok NaN)) masked_out_pp None false <> Ok self.
Proof.
  split; [exact (count_active_all_nan _ masked_out_all_nan)|].
  exact (proj1 (no_active_cell_fails (np_percentile (Ok NaN)) masked_out_pp None false
                  (count_active_all_nan _ masked_out_all_nan))).
Defined.

(** C6 as worded fails: on a grid with no active cell the
    constructor ends in a ZeroDivisionError, or in what np.percentile raises
    on an empty sample; neither is a ConfigurationError. *)
Lemma no_active_cell_not_configuration_error :
  count_active (concat (pp_grid masked_out_pp)) = O /\
  init (np_percentile (Ok NaN)) masked_out_pp None false
    = Raise "ZeroDivisionError" /\
  init (np_percentile (Raise "IndexError")) masked_out_pp None false
    = Raise "IndexError" /\
  init (np_percentile (Ok NaN)) masked_out_pp None false
    <> Raise "ConfigurationError" /\
  init (np_percentile (Raise "IndexError")) masked_out_pp None false
    <> Raise "ConfigurationError".
Proof.
  assert (Hq : 0 <= pp_twi_cutoff masked_out_pp <= 100) by (cbn; lra).
  split; [exact (count_active_all_nan _ masked_out_all_nan)|].
  rewrite !(init_masked_out _ _ _ _ masked_out_all_nan).
  rewrite !(np_percentile_empty _ _ Hq). cbn [bind].
  repeat split; try reflexivity; discriminate.
Qed.


(** The precondition M + eps > 0 cannot be dropped: the constructor stores
    pp['m'] unchecked, and with m = -1 it builds an object with Qo > 0 whose
    baseflow grows with the state. *)
Lemma baseflow_increasing_negative_depth :
  exists self,
    init (np_percentile (Ok NaN)) negative_depth_pp None false = Ok self /\
    0 < self_Qo self /\
    exists Qb1 Qb2,
      subsurfaceflow (set_S self 0) = Ok Qb1 /\
      subsurfaceflow (set_S self 1) = Ok Qb2 /\
      0 < 1 /\
      Qb1 < Qb2.
Proof.
  pose proof eps_pos as He.
  assert (He1 : eps < 1) by (unfold eps; lra).
  destruct (init_returns (np_percentile (Ok NaN)) negative_depth_pp None false)
    as (self & Hi).
  - exact example_valid.
  - change (pp_grid negative_depth_pp) with (pp_grid example_pp).
    rewrite example_count_active. lia.
  - intros xi0 _. apply np_percentile_returns. cbn. lra.
  - exists self. split; [exact Hi|].
    destruct (init_inv _ _ _ _ _ Hi)
      as (xi0 & clim & _ & _ & _ & _ & _ & _ & _ & HM & HTo & HQo & _).
    cbn [negative_depth_pp pp_m pp_ko pp_dt example_pp] in HM, HTo.
    assert (HQ : 0 < self_Qo self).
    { rewrite HQo, HTo. apply Rmult_lt_0_compat; [lra | apply exp_pos]. }
    split; [exact HQ|].
    assert (HM' : self_M self + eps <> 0) by (rewrite HM; lra).
    eexists _, _. split; [|split; [|split; [exact Rlt_0_1|]]].
    + apply (subsurfaceflow_ok (set_S self 0)). exact HM'.
    + apply (subsurfaceflow_ok (set_S self 1)). exact HM'.
    + apply Rmult_lt_compat_l; [exact HQ|]. apply exp_increasing.
      cbn [set_S self_S self_M]. rewrite HM.
      replace (- 0 / (-1 + eps)) with 0 by (field; lra).
      replace (- (1) / (-1 + eps)) with (/ (1 - eps)) by (field; lra).
      apply Rinv_0_lt_compat. lra.
Qed.

(** ** Baseflow in float64 *)

(** The lemmas below are about [rounds_to]: a float64 is its own rounding,
    a value below half the smallest subnormal rounds to zero, rounding is
    monotone, and below the overflow threshold every value has a
    rounding. *)

Lemma binary64_overflow_gt : 4503599627370496 * 4503599627370496 < binary64_overflow.
Proof.
  unfold binary64_overflow.
  let v := eval vm_compute in (2 ^ 1024 - 2 ^ 970)%Z in
  change (2 ^ 1024 - 2 ^ 970)%Z with v.
  lra.
Qed.

Lemma powerRZ_2_ge_1 (z : Z) : (0 <= z)%Z -> 1 <= powerRZ 2 z.
Proof.
  intros Hz. destruct z as [|p|p]; [cbn; lra | | lia].
  cbn [powerRZ]. apply pow_R1_Rle. lra.
Qed.

Lemma powerRZ_2_mono (a b : Z) : (a <= b)%Z -> powerRZ 2 a <= powerRZ 2 b.
Proof.
  intros Hab. replace b with (a + (b - a))%Z by lia.
  rewrite powerRZ_add by lra.
  pose proof (powerRZ_lt 2 a ltac:(lra)).
  pose proof (powerRZ_2_ge_1 (b - a) ltac:(lia)). nra.
Qed.

Lemma binary64_0 : binary64 0.
Proof. exists 0%Z, 0%Z. repeat split; try lia. cbn. lra. Qed.

Lemma binary64_pow2 (e : Z) : (-1074 <= e <= 971)%Z -> binary64 (powerRZ 2 e).
Proof. intros He. exists 1%Z, e. repeat split; try lia. lra. Qed.

(** A float64 other than zero is at least the smallest subnormal away from
    zero. *)
Lemma binary64_nonzero (g : R) :
  binary64 g -> g <> 0 -> powerRZ 2 (-1074) <= Rabs g.
Proof.
  intros (m & e & Hm & He & ->) Hg.
  assert (Hm0 : m <> 0%Z) by (intros ->; apply Hg; lra).
  pose proof (powerRZ_lt 2 e ltac:(lra)) as Hp.
  rewrite Rabs_mult, (Rabs_pos_eq (powerRZ 2 e)) by lra.
  rewrite Rabs_Zabs.
  assert (H1 : 1 <= IZR (Z.abs m)) by (apply IZR_le; lia).
  pose proof (powerRZ_2_mono (-1074) e ltac:(lia)) as H2.
  pose proof (powerRZ_lt 2 (-1074) ltac:(lra)). nra.
Qed.

(** The result of an operation whose exact value is a float64 is that
    value. *)
Lemma rounds_to_exact (y f : R) :
  binary64 y -> Rabs y < binary64_overflow -> (rounds_to y f <-> f = y).
Proof.
  intros Hy Ho. split.
  - intros (_ & _ & Hn). specialize (Hn y Hy).
    replace (y - y) with 0 in Hn by ring. rewrite Rabs_R0 in Hn.
    pose proof (Rabs_pos (y - f)).
    assert (E : Rabs (y - f) = 0) by lra.
    destruct (Req_dec (y - f) 0) as [H0|H0]; [lra|].
    apply Rabs_no_R0 in H0. contradiction.
  - intros ->. split; [exact Ho|]. split; [exact Hy|].
    intros g _. replace (y - y) with 0 by ring. rewrite Rabs_R0. apply Rabs_pos.
Qed.

(** An exact value below half the smallest subnormal underflows to zero. *)
Lemma rounds_to_underflow (y f : R) :
  0 <= y -> 2 * y < powerRZ 2 (-1074) -> (rounds_to y f <-> f = 0).
Proof.
  intros Hy Ht.
  pose proof (powerRZ_2_mono (-1074) 0 ltac:(lia)) as H1. cbn [powerRZ] in H1.
  pose proof binary64_overflow_gt as Ho.
  assert (Hnear : forall g, binary64 g -> g <> 0 -> Rabs (y - 0) < Rabs (y - g)).
  { intros g Hg Hg0. pose proof (binary64_nonzero g Hg Hg0) as Hb.
    replace (y - 0) with y by ring. rewrite (Rabs_pos_eq y Hy).
    pose proof (Rabs_triang_inv g y) as Ht2.
    rewrite (Rabs_pos_eq y Hy) in Ht2.
    rewrite (Rabs_minus_sym y g). cbn [powerRZ] in *. lra. }
  split.
  - intros (_ & Hf & Hn).
    destruct (Req_dec f 0) as [E|E]; [exact E|].
    pose proof (Hnear f Hf E). specialize (Hn 0 binary64_0). lra.
  - intros ->. split; [rewrite (Rabs_pos_eq y Hy); cbn [powerRZ] in *; lra|].
    split; [exact binary64_0|].
    intros g Hg. destruct (Req_dec g 0) as [->|E]; [lra|].
    left. now apply Hnear.
Qed.

Lemma pow_2_lt_exp (n : nat) : 2 ^ S n < exp (INR (S n)).
Proof.
  pose proof (exp_ineq1 1 ltac:(lra)) as H1.
  induction n as [|n IH].
  - cbn. lra.
  - rewrite S_INR, exp_plus. change (2 ^ S (S n)) with (2 * 2 ^ S n).
    pose proof (pow_lt 2 (S n) ltac:(lra)). nra.
Qed.

(** exp(-x) is below half the smallest subnormal from x = 1075 on. *)
Lemma exp_underflow (x : R) : 1075 <= x -> 0 <= exp (- x) /\ 2 * exp (- x) < powerRZ 2 (-1074).
Proof.
  intros Hx. split; [left; apply exp_pos|].
  assert (H0 : exp 1075 <= exp x).
  { destruct Hx as [Hx|Hx]; [left; now apply exp_increasing | subst x; apply Rle_refl]. }
  assert (H1 : exp (- x) <= / exp 1075).
  { rewrite exp_Ropp. apply Rinv_le_contravar; [apply exp_pos | exact H0]. }
  pose proof (pow_2_lt_exp 1074) as H2.
  replace (INR 1075) with 1075 in H2 by (rewrite INR_IZR_INZ; reflexivity).
  pose proof (pow_lt 2 1075 ltac:(lra)) as H3.
  assert (H4 : / exp 1075 < / 2 ^ 1075) by (apply Rinv_lt_contravar; [apply Rmult_lt_0_compat|]; lra).
  change (powerRZ 2 (-1074)) with (/ 2 ^ 1074).
  change (2 ^ 1075) with (2 * 2 ^ 1074) in H4, H3.
  pose proof (pow_lt 2 1074 ltac:(lra)) as H5.
  rewrite Rinv_mult in H4.
  pose proof (Rinv_0_lt_compat _ H5). lra.
Qed.

Lemma eps_power : eps = powerRZ 2 (-52).
Proof.
  unfold eps. change (powerRZ 2 (-52)) with (/ 2 ^ 52). f_equal.
  change 2 with (IZR 2). rewrite pow_IZR. reflexivity.
Qed.

Lemma binary64_eps : binary64 eps.
Proof. rewrite eps_power. apply binary64_pow2. lia. Qed.

(** In float64, with M = 0 every state S = 1, 2, ..., 1000 has the
    baseflow 0.0: -S/eps is exact and exp of it underflows. *)
Lemma zero_depth_baseflow_f64 (self : Topmodel_Homogenous) (k : Z) (Qb : R) :
  self_M self = 0 ->
  (1 <= k <= 1000)%Z ->
  subsurfaceflow_f64 (set_S self (IZR k)) Qb <-> Qb = 0.
Proof.
  intros HM Hk.
  pose proof eps_pos as He. pose proof binary64_overflow_gt as Ho.
  assert (Hk1 : 1 <= IZR k <= 1000) by (split; apply IZR_le; lia).
  assert (Hd : forall d, rounds_to (self_M self + eps) d <-> d = eps).
  { intros d. rewrite HM, Rplus_0_l. apply rounds_to_exact; [exact binary64_eps|].
    rewrite Rabs_pos_eq by lra. unfold eps in *. lra. }
  assert (Eq : - IZR k / eps = IZR (- k) * powerRZ 2 52).
  { unfold eps. change (powerRZ 2 52) with (2 ^ 52).
    change 2 with (IZR 2) at 1. rewrite pow_IZR, opp_IZR.
    change (IZR (2 ^ Z.of_nat 52)) with 4503599627370496. field. }
  assert (Hq : forall q, rounds_to (- IZR k / eps) q <-> q = - IZR k / eps).
  { intros q. apply rounds_to_exact.
    - rewrite Eq. exists (- k)%Z, 52%Z. repeat split; lia.
    - unfold Rdiv. rewrite Rabs_mult, Rabs_Ropp, !Rabs_pos_eq;
        [|left; now apply Rinv_0_lt_compat | lra].
      unfold eps. rewrite Rinv_inv. lra. }
  assert (Hx : 1075 <= IZR k / eps).
  { unfold Rdiv, eps. rewrite Rinv_inv. lra. }
  destruct (exp_underflow _ Hx) as (Hu1 & Hu2).
  replace (- (IZR k / eps)) with (- IZR k / eps) in Hu1, Hu2 by (field; lra).
  assert (Hex : forall ex, rounds_to (exp (- IZR k / eps)) ex <-> ex = 0)
    by (intros ex; now apply rounds_to_underflow).
  assert (H0 : forall f, rounds_to 0 f <-> f = 0).
  { intros f. apply rounds_to_exact; [exact binary64_0|]. rewrite Rabs_R0. lra. }
  unfold subsurfaceflow_f64. cbn [set_S self_S self_M self_Qo]. split.
  - intros (d & q & ex & H1 & _ & H2 & H3 & H4).
    apply Hd in H1. subst d. apply Hq in H2. subst q. apply Hex in H3. subst ex.
    rewrite Rmult_0_r in H4. now apply H0.
  - intros ->. exists eps, (- IZR k / eps), 0.
    split; [now apply Hd|]. split; [lra|]. split; [now apply Hq|].
    split; [now apply Hex|]. rewrite Rmult_0_r. now apply H0.
Qed.










(** ** A catchment cell without an index *)





Lemma cutoff_enforced_witness :
  init (np_percentile (Ok NaN)) example_pp None false = Ok example_self /\
  exists xi0 clim,
    unclamped_xi example_pp = Ok xi0 /\
    np_percentile (Ok NaN) (select_positive xi0) (pp_twi_cutoff example_pp) = Ok clim /\
    self_xi example_self = clamp_above clim xi0 /\
    (forall c, clim = Fin c ->
       Forall (fun v => forall x, v = Fin x -> x <= c) (self_xi example_self)).
Proof.
  split; [exact example_init|].
  destruct (cutoff_enforced _ _ _ _ _ example_init)
    as (xi0 & clim & H1 & H2 & H3 & H4 & _).
  exists xi0, clim. repeat split; assumption.
Defined.

Lemma saturated_fraction_bounds_witness :
  init (np_percentile (Ok NaN)) example_pp None false = Ok example_self /\
  valid_topography example_pp /\
  pp_m example_pp + eps <> 0 /\
  state_of example_self example_self /\
  exists fr,
    run_timestep_frame example_self 0 = Ok fr /\
    0 <= fr_fsat fr <= 1.
Proof.
  split; [exact example_init|]. split; [exact example_valid|].
  split; [exact example_depth|]. split; [exact (state_of_refl example_self)|].
  destruct (saturated_fraction_bounds _ _ _ _ _ example_self 0 example_init
              example_valid example_depth (state_of_refl example_self))
    as (fr & H1 & _ & _ & H4 & _).
  exists fr. split; assumption.
Defined.

(** The scenario of the specification, one step with zero recharge: no
    return flow, no saturated cell, the state grows by the baseflow, and the
    dict carries that state under 'saturated_area' while fsat is 0. *)
Example scenario_step :
  exists fr,
    run_timestep_frame scenario_self 0 = Ok fr /\
    fr_Qb fr = 864 / 10 * exp (- 2) * exp (- (5 / 100) / (25 / 1000 + eps)) /\
    self_qr (fr_self fr) = [Fin 0; Fin 0] /\
    fr_Qr fr = 0 /\
    fr_fsat fr = 0 /\
    self_S (fr_self fr) = 5 / 100 + fr_Qb fr /\
    fr_mbe fr = 0 /\
    dict_get "saturated_area" (fr_results fr) = Some (5 / 100 + fr_Qb fr) /\
    dict_get "saturated_area" (fr_results fr) <> Some (fr_fsat fr).
Proof.
  pose proof eps_pos as He.
  assert (HM : self_M scenario_self + eps <> 0) by (cbn; lra).
  assert (HA : self_CatchmentArea scenario_self <> 0%Z) by (cbn; discriminate).
  frame_eq scenario_self 0 HM HA E.
  eexists. split; [exact E|].
  cbn [fr_Qb fr_self fr_Qr fr_fsat fr_mbe fr_results set_S set_qr self_S self_qr
       self_Qo self_M self_CellArea self_CatchmentArea scenario_self].
  set (Qb := 864 / 10 * exp (- 2) * exp (- (5 / 100) / (25 / 1000 + eps))).
  assert (HQ : 0 < Qb).
  { unfold Qb. apply Rmult_lt_0_compat; [apply Rmult_lt_0_compat; [lra|]|];
      apply exp_pos. }
  unfold local_s.
  cbn [self_xi self_M self_X scenario_self map fadd fsub fmul fneg lift1 lift2
       clamp_negative flt fle filter].
  rewrite !(rlt_true _ 0) by lra.
  rewrite !(rle_false _ 0) by lra.
  cbn [nansum length Z.of_nat Z.mul dict_get String.eqb Ascii.eqb Bool.eqb].
  repeat split; try lra.
  - f_equal. lra.
  - intros H. injection H as H. lra.
Qed.

(** * Further properties of the constructor and of the timestep *)

(** ** Baseflow *)

Lemma init_areas_positive percentile (pp : params) (S_initial : option R)
      (outputs : bool) (self : Topmodel_Homogenous) :
  init percentile pp S_initial outputs = Ok self ->
  0 < IZR (self_CellArea self) /\ 0 < IZR (self_CatchmentArea self).
Proof.
  intros Hi.
  destruct (init_inv _ _ _ _ _ Hi)
    as (xi0 & clim & _ & _ & _ & HA & HC & Hnz & _).
  assert (0 < self_CellArea self)%Z by (rewrite HA in *; lia).
  assert (0 < self_CatchmentArea self)%Z by (rewrite HC in *; nia).
  split; now apply IZR_lt.
Qed.

Lemma init_Qo_nonneg percentile (pp : params) (S_initial : option R)
      (outputs : bool) (self : Topmodel_Homogenous) :
  init percentile pp S_initial outputs = Ok self ->
  0 <= pp_ko pp -> 0 <= pp_dt pp -> 0 <= self_Qo self.
Proof.
  intros Hi Hk Hd.
  destruct (init_inv _ _ _ _ _ Hi)
    as (xi0 & clim & _ & _ & _ & _ & _ & _ & _ & _ & HTo & HQo & _).
  rewrite HQo, HTo.
  apply Rmult_le_pos; [now apply Rmult_le_pos | left; apply exp_pos].
Qed.

Lemma exp_nonpos_le_1 (x : R) : x <= 0 -> exp x <= 1.
Proof.
  intros [H|H].
  - left. rewrite <- exp_0. now apply exp_increasing.
  - subst x. rewrite exp_0. lra.
Qed.

(** X1.  On a valid topography, with ko >= 0, dt >= 0 and m + eps > 0, the
    constructed object has Qo >= 0; Qo is the baseflow at S = 0 (the comment
    of line 79), and the baseflow at a state S >= 0 lies between 0 and
    Qo. *)
Theorem baseflow_bounds percentile (pp : params) (S_initial : option R)
        (outputs : bool) (self : Topmodel_Homogenous) (S_ : R) :
  init percentile pp S_initial outputs = Ok self ->
  valid_topography pp ->
  0 <= pp_ko pp ->
  0 <= pp_dt pp ->
  0 < pp_m pp + eps ->
  0 <= S_ ->
  0 <= self_Qo self /\
  subsurfaceflow (set_S self 0) = Ok (self_Qo self) /\
  exists Qb,
    subsurfaceflow (set_S self S_) = Ok Qb /\
    0 <= Qb <= self_Qo self.
Proof.
  intros Hi _ Hk Hd HM HS.
  pose proof (init_Qo_nonneg _ _ _ _ _ Hi Hk Hd) as HQ.
  destruct (init_inv _ _ _ _ _ Hi)
    as (xi0 & clim & _ & _ & _ & _ & _ & _ & _ & HMeq & _).
  rewrite <- HMeq in HM.
  split; [exact HQ|]. split.
  - rewrite (subsurfaceflow_ok (set_S self 0)) by (cbn; lra).
    cbn [set_S self_S self_Qo self_M]. f_equal.
    replace (- 0 / (self_M self + eps)) with 0 by (field; lra).
    rewrite exp_0. ring.
  - eexists. split; [apply (subsurfaceflow_ok (set_S self S_)); cbn; lra|].
    cbn [set_S self_S self_Qo self_M].
    pose proof (exp_pos (- S_ / (self_M self + eps))) as Hp.
    assert (He : exp (- S_ / (self_M self + eps)) <= 1).
    { apply exp_nonpos_le_1. unfold Rdiv.
      assert (0 < / (self_M self + eps)) by now apply Rinv_0_lt_compat.
      nra. }
    split; nra.
Qed.

(** ** Return flow *)

Lemma returnflow_cell_shape (self : Topmodel_Homogenous) (S_prov : R) (xi : list float) :
  Forall2 same_nan xi (map (returnflow_cell self S_prov) xi) /\
  Forall nan_or_nonneg (map (returnflow_cell self S_prov) xi).
Proof.
  induction xi as [|[|x] t [IH1 IH2]]; cbn [map returnflow_cell].
  - split; constructor.
  - split; constructor; cbn; auto.
  - split; constructor; cbn; auto. apply Rmax_l.
Qed.

(** A step of a constructed object from any of its states, in terms of the
    constants of the object as it was built. *)
Lemma constructed_step percentile (pp : params) (S_initial : option R)
      (outputs : bool) (self0 self : Topmodel_Homogenous) (R_ : R) :
  init percentile pp S_initial outputs = Ok self0 ->
  pp_m pp + eps <> 0 ->
  state_of self0 self ->
  exists fr,
    run_timestep_frame self R_ = Ok fr /\
    fr_Qb fr = self_Qo self0 * exp (- self_S self / (self_M self0 + eps)) /\
    fr_S_prov fr = self_S self + fr_Qb fr - R_ /\
    fr_s fr = local_s self0 (fr_S_prov fr) /\
    self_qr (fr_self fr)
      = map (returnflow_cell self0 (fr_S_prov fr)) (self_xi self0) /\
    fr_Qr fr = returnflow_area_sum self0 (fr_S_prov fr) (self_xi self0)
               / IZR (self_CatchmentArea self0) /\
    self_S (fr_self fr) = fr_S_prov fr + fr_Qr fr /\
    fr_fsat fr = IZR (Z.of_nat (count_saturated (fr_s fr)) * self_CellArea self0)
                 / IZR (self_CatchmentArea self0) /\
    state_of self0 (fr_self fr).
Proof.
  intros Hi HM Hst.
  destruct (init_inv _ _ _ _ _ Hi)
    as (xi0 & clim & _ & _ & _ & _ & _ & Hnz & _ & HMeq & _).
  rewrite <- HMeq in HM.
  unfold state_of in Hst.
  remember (self_qr self) as q eqn:Eq. remember (self_S self) as v eqn:Ev.
  clear Eq Ev. subst self.
  frame_eq (set_S (set_qr self0 q) v) R_ HM Hnz E.
  eexists. split; [exact E|].
  cbn [fr_Qb fr_S_prov fr_s fr_self fr_Qr fr_fsat set_S set_qr self_qr self_S
       self_Qo self_M self_CellArea self_CatchmentArea].
  set (Sp := v + _ - R_).
  change (local_s (set_S (set_qr self0 q) v) Sp) with (local_s self0 Sp).
  repeat split.
  - apply returnflow_field.
  - rewrite returnflow_field, returnflow_sum. reflexivity.
Qed.

(** X2.  On a valid topography, on an object with Qo > 0, a step from any
    state returns a return-flow field that is NaN exactly where the index
    field is NaN and non-negative elsewhere, a catchment return flow
    Qr >= 0, and a committed deficit that is not below the provisional
    one. *)
Theorem returnflow_nonnegative percentile (pp : params) (S_initial : option R)
        (outputs : bool) (self0 self : Topmodel_Homogenous) (R_ : R) :
  init percentile pp S_initial outputs = Ok self0 ->
  valid_topography pp ->
  0 < self_Qo self0 ->
  pp_m pp + eps <> 0 ->
  state_of self0 self ->
  exists fr,
    run_timestep_frame self R_ = Ok fr /\
    Forall2 same_nan (self_xi self0) (self_qr (fr_self fr)) /\
    Forall nan_or_nonneg (self_qr (fr_self fr)) /\
    0 <= fr_Qr fr /\
    fr_S_prov fr <= self_S (fr_self fr).
Proof.
  intros Hi _ _ HM Hst.
  destruct (init_areas_positive _ _ _ _ _ Hi) as (HA & HC).
  destruct (constructed_step _ _ _ _ _ _ R_ Hi HM Hst)
    as (fr & E & _ & _ & _ & Hqr & HQr & HS & _).
  exists fr. split; [exact E|].
  destruct (returnflow_cell_shape self0 (fr_S_prov fr) (self_xi self0)) as (H1 & H2).
  assert (H3 : 0 <= fr_Qr fr).
  { rewrite HQr. apply Rmult_le_pos.
    - apply returnflow_area_sum_nonneg. lra.
    - left. now apply Rinv_0_lt_compat. }
  rewrite Hqr. repeat split; try assumption. lra.
Qed.

(** X3.  On a valid topography, on an object with Qo > 0, a step without
    recharge (R <= 0) never lowers the deficit, from any state: the baseflow
    is >= 0 and so is the return flow. *)
Theorem no_recharge_no_decrease percentile (pp : params)
        (S_initial : option R) (outputs : bool)
        (self0 self : Topmodel_Homogenous) (R_ : R) :
  init percentile pp S_initial outputs = Ok self0 ->
  valid_topography pp ->
  0 < self_Qo self0 ->
  pp_m pp + eps <> 0 ->
  state_of self0 self ->
  R_ <= 0 ->
  exists fr,
    run_timestep_frame self R_ = Ok fr /\
    0 <= fr_Qb fr /\
    self_S self <= fr_S_prov fr /\
    self_S self <= self_S (fr_self fr).
Proof.
  intros Hi _ HQ HM Hst HR.
  destruct (init_areas_positive _ _ _ _ _ Hi) as (HA & HC).
  destruct (constructed_step _ _ _ _ _ _ R_ Hi HM Hst)
    as (fr & E & HQb & HSp & _ & _ & HQr & HS & _).
  exists fr. split; [exact E|].
  assert (H1 : 0 <= fr_Qb fr).
  { rewrite HQb. apply Rmult_le_pos; [lra | left; apply exp_pos]. }
  assert (H2 : 0 <= fr_Qr fr).
  { rewrite HQr. apply Rmult_le_pos.
    - apply returnflow_area_sum_nonneg. lra.
    - left. now apply Rinv_0_lt_compat. }
  split; [exact H1|]. split; lra.
Qed.

(** ** More recharge *)

Lemma returnflow_area_sum_antitone (self : Topmodel_Homogenous) (S1 S2 : R)
      (xi : list float) :
  0 <= IZR (self_CellArea self) ->
  S2 <= S1 ->
  returnflow_area_sum self S1 xi <= returnflow_area_sum self S2 xi.
Proof.
  intros HA HS.
  induction xi as [|[|x] t IH]; cbn [returnflow_area_sum].
  - lra.
  - exact IH.
  - set (c := self_M self * (self_X self - x)).
    assert (H1 : Rmax 0 (- (S1 + c)) <= Rmax 0 (- (S2 + c)))
      by (apply Rle_max_compat_l; lra).
    set (q1 := Rmax 0 (- (S1 + c))) in *. set (q2 := Rmax 0 (- (S2 + c))) in *.
    nra.
Qed.

Lemma count_saturated_antitone (self : Topmodel_Homogenous) (S1 S2 : R) :
  S2 <= S1 ->
  (count_saturated (local_s self S1) <= count_saturated (local_s self S2))%nat.
Proof.
  intros HS. unfold count_saturated, local_s.
  set (g1 := fun x : float => fadd (Fin S1) _).
  set (g2 := fun x : float => fadd (Fin S2) _).
  induction (self_xi self) as [|[|x] t IH]; cbn [map filter].
  - lia.
  - change (g1 NaN) with NaN. change (g2 NaN) with NaN. cbn [fle]. exact IH.
  - change (g1 (Fin x)) with (Fin (S1 + self_M self * (self_X self - x))).
    change (g2 (Fin x)) with (Fin (S2 + self_M self * (self_X self - x))).
    cbn [fle]. unfold rle.
    destruct (Rle_dec (S1 + _) 0), (Rle_dec (S2 + _) 0); cbn [length]; lia || lra.
Qed.

(** X4.  On a valid topography, on an object with Qo > 0, from one state,
    more recharge never gives a larger provisional deficit, never less
    return flow and never a smaller saturated fraction. *)
Theorem recharge_monotone percentile (pp : params) (S_initial : option R)
        (outputs : bool) (self0 self : Topmodel_Homogenous) (R1 R2 : R) :
  init percentile pp S_initial outputs = Ok self0 ->
  valid_topography pp ->
  0 < self_Qo self0 ->
  pp_m pp + eps <> 0 ->
  state_of self0 self ->
  R1 <= R2 ->
  exists fr1 fr2,
    run_timestep_frame self R1 = Ok fr1 /\
    run_timestep_frame self R2 = Ok fr2 /\
    fr_S_prov fr2 <= fr_S_prov fr1 /\
    fr_Qr fr1 <= fr_Qr fr2 /\
    fr_fsat fr1 <= fr_fsat fr2.
Proof.
  intros Hi Hv _ HM Hst HR.
  destruct (init_consistent _ _ _ _ _ Hi Hv) as (Hc & _ & _).
  destruct (IZR_catchment self0 Hc) as (EZ & HA & Hn & HC).
  destruct (constructed_step _ _ _ _ _ _ R1 Hi HM Hst)
    as (fr1 & E1 & HQb1 & HSp1 & Hs1 & _ & HQr1 & HS1 & Hf1 & _).
  destruct (constructed_step _ _ _ _ _ _ R2 Hi HM Hst)
    as (fr2 & E2 & HQb2 & HSp2 & Hs2 & _ & HQr2 & HS2 & Hf2 & _).
  exists fr1, fr2. split; [exact E1|]. split; [exact E2|].
  assert (HSp : fr_S_prov fr2 <= fr_S_prov fr1)
    by (rewrite HSp1, HSp2, HQb1, HQb2; lra).
  pose proof (returnflow_area_sum_antitone self0 _ _ (self_xi self0)
                (Rlt_le _ _ HA) HSp) as HT1.
  set (T1 := returnflow_area_sum self0 (fr_S_prov fr1) (self_xi self0)) in *.
  set (T2 := returnflow_area_sum self0 (fr_S_prov fr2) (self_xi self0)) in *.
  assert (Hinv : 0 < / IZR (self_CatchmentArea self0)) by now apply Rinv_0_lt_compat.
  split; [exact HSp|]. split.
  - rewrite HQr1, HQr2. unfold Rdiv. nra.
  - rewrite Hf1, Hf2, Hs1, Hs2.
    pose proof (count_saturated_antitone self0 _ _ HSp) as Hk.
    apply le_INR in Hk. rewrite !mult_IZR, <- !INR_IZR_INZ. unfold Rdiv.
    apply Rmult_le_compat_r; [lra|]. apply Rmult_le_compat_r; [lra | exact Hk].
Qed.

(** ** Saturated and unsaturated catchments *)

Lemma nansum_scale (A : R) (l : list float) :
  nansum (map (fun v => fmul v (Fin A)) l) = nansum l * A.
Proof.
  induction l as [|[|x] t IH]; cbn [map nansum fmul lift2]; [ring | exact IH |].
  rewrite IH. ring.
Qed.

Lemma returnflow_none_saturated (self : Topmodel_Homogenous) (S_prov : R) :
  Forall nan_or_nonneg (local_s self S_prov) ->
  returnflow_area_sum self S_prov (self_xi self) = 0 /\
  map (returnflow_cell self S_prov) (self_xi self)
  = map (lift1 (fun _ => 0)) (self_xi self).
Proof.
  unfold local_s. set (g := fun x : float => fadd _ _).
  induction (self_xi self) as [|[|x] t IH];
    cbn [map returnflow_area_sum returnflow_cell lift1]; intros H.
  - split; reflexivity.
  - inversion H; subst. destruct IH as (IH1 & IH2); [assumption|].
    split; [exact IH1 | now rewrite IH2].
  - inversion H as [|? ? Hx Ht]; subst.
    change (g (Fin x)) with (Fin (S_prov + self_M self * (self_X self - x))) in Hx.
    cbn [nan_or_nonneg] in Hx. destruct (IH Ht) as (IH1 & IH2).
    rewrite IH1, IH2, Rmax_left by lra. split; [ring | reflexivity].
Qed.

(** X6.  On a valid topography, on an object with Qo > 0, when the
    provisional state leaves no cell with a negative local deficit there is
    no return flow: the field qr is zero on every cell that carries an
    index, Qr = 0, and the committed deficit is S_prev + Qb - R. *)
Theorem unsaturated_step percentile (pp : params) (S_initial : option R)
        (outputs : bool) (self0 self : Topmodel_Homogenous) (R_ : R) :
  init percentile pp S_initial outputs = Ok self0 ->
  valid_topography pp ->
  0 < self_Qo self0 ->
  pp_m pp + eps <> 0 ->
  state_of self0 self ->
  exists fr,
    run_timestep_frame self R_ = Ok fr /\
    (Forall nan_or_nonneg (fr_s fr) ->
     self_qr (fr_self fr) = map (lift1 (fun _ => 0)) (self_xi self0) /\
     fr_Qr fr = 0 /\
     self_S (fr_self fr) = self_S self + fr_Qb fr - R_).
Proof.
  intros Hi _ _ HM Hst.
  destruct (constructed_step _ _ _ _ _ _ R_ Hi HM Hst)
    as (fr & E & _ & HSp & Hs & Hqr & HQr & HS & _).
  exists fr. split; [exact E|]. intros Hdry. rewrite Hs in Hdry.
  destruct (returnflow_none_saturated _ _ Hdry) as (H1 & H2).
  assert (HQ : fr_Qr fr = 0) by (rewrite HQr, H1; unfold Rdiv; ring).
  split; [now rewrite Hqr, H2|]. split; [exact HQ|].
  rewrite HS, HQ, HSp. ring.
Qed.

(** ** The initial state *)

Lemma nansum_clamp_negative_ge (s : list float) :
  nansum s <= nansum (clamp_negative s).
Proof.
  unfold clamp_negative. set (g := fun v : float => _).
  induction s as [|[|x] t IH]; cbn [map].
  - cbn. lra.
  - change (g NaN) with NaN. exact IH.
  - change (g (Fin x)) with (if rlt x 0 then Fin 0 else Fin x).
    unfold rlt. destruct (Rlt_dec x 0); cbn [nansum]; lra.
Qed.

Lemma clamp_negative_id (s : list float) :
  Forall nan_or_nonneg s -> clamp_negative s = s.
Proof.
  unfold clamp_negative. induction 1 as [|[|x] t Hx _ IH]; cbn [map flt].
  - reflexivity.
  - now rewrite IH.
  - cbn in Hx. rewrite (rlt_false x 0 Hx). now rewrite IH.
Qed.

Lemma nanmean_inv (s : list float) (v : R) :
  nanmean s = Ok v -> v = nansum s / INR (count_valid s).
Proof.
  unfold nanmean. destruct (count_valid s) as [|k]; [discriminate|].
  intros H. now injection H as <-.
Qed.

Lemma initial_deficit_clamped percentile (pp : params) (S_initial : option R)
        (outputs : bool) (self : Topmodel_Homogenous) :
  init percentile pp S_initial outputs = Ok self ->
  exists v,
    nanmean (local_s self (effective_S_initial pp S_initial)) = Ok v /\
    v <= self_S self /\
    (Forall nan_or_nonneg (local_s self (effective_S_initial pp S_initial)) ->
     self_S self = v).
Proof.
  intros Hi.
  destruct (init_inv _ _ _ _ _ Hi)
    as (xi0 & clim & _ & _ & _ & _ & _ & _ & _ & _ & _ & _ & HS).
  set (S0 := effective_S_initial pp S_initial) in *.
  pose proof (nanmean_inv _ _ HS) as Hv.
  rewrite count_valid_clamp_negative in Hv.
  unfold nanmean in HS |- *. rewrite count_valid_clamp_negative in HS.
  destruct (count_valid (local_s self S0)) as [|k] eqn:Ek; [discriminate|].
  eexists. split; [reflexivity|].
  assert (Hinv : 0 < / INR (S k))
    by (apply Rinv_0_lt_compat; apply lt_0_INR; lia).
  split.
  - rewrite Hv. pose proof (nansum_clamp_negative_ge (local_s self S0)) as Hge.
    unfold Rdiv. apply Rmult_le_compat_r; [lra | exact Hge].
  - intros Hpos. rewrite Hv, (clamp_negative_id _ Hpos). reflexivity.
Qed.

(** X7.  The clamp of line 84 never lowers the initial state: on a valid
    topography the stored S is at least the mean of the unclamped local
    deficits of the initial value in force (S_initial, or pp['so']), and is
    that mean when none of them is negative. *)
Theorem initial_deficit_regularised percentile (pp : params) (S_initial : option R)
        (outputs : bool) (self : Topmodel_Homogenous) :
  init percentile pp S_initial outputs = Ok self ->
  valid_topography pp ->
  exists v,
    nanmean (local_s self (effective_S_initial pp S_initial)) = Ok v /\
    v <= self_S self /\
    (Forall nan_or_nonneg (local_s self (effective_S_initial pp S_initial)) ->
     self_S self = v).
Proof. intros Hi _. now apply (initial_deficit_clamped percentile pp S_initial outputs). Qed.

(** X8.  A non-zero S_initial does override pp['so']: the object is the one
    built without the argument from the dict whose 'so' is that value. *)
Theorem nonzero_S_initial_overrides percentile (pp : params) (v : R)
        (outputs : bool) :
  v <> 0 ->
  effective_S_initial pp (Some v) = v /\
  init percentile pp (Some v) outputs = init percentile (set_so pp v) None outputs.
Proof.
  intros Hv.
  assert (E : effective_S_initial pp (Some v) = v)
    by (unfold effective_S_initial; now rewrite (req_false v 0 Hv)).
  split; [exact E|]. unfold init. rewrite E. reflexivity.
Qed.

(** ** Runs *)

Lemma dict_keys_of_step (self : Topmodel_Homogenous) (R_ : R) self' res :
  run_timestep self R_ = Ok (self', res) ->
  map fst res = [ "baseflow"%string; "water_closure"%string; "saturated_area"%string ] /\
  length (self_qr self') = length (self_xi self).
Proof.
  intros H. destruct (run_timestep_inv _ _ _ H) as (HM & HA).
  unfold run_timestep in H. frame_eq self R_ HM HA E. rewrite E in H.
  cbn [bind fr_self fr_results] in H. injection H as <- <-.
  split; [reflexivity|].
  cbn [set_S set_qr self_qr]. unfold clamp_negative, local_s.
  now rewrite !length_map.
Qed.

Lemma run_steps_dicts (Rs : list R) :
  forall (self self' : Topmodel_Homogenous) outs,
    run_steps self Rs = Ok (self', outs) ->
    Forall (fun d => map fst d
                     = [ "baseflow"%string; "water_closure"%string;
                         "saturated_area"%string ]) outs /\
    (Rs <> [] -> length (self_qr self') = length (self_xi self)).
Proof.
  induction Rs as [|R_ t IH]; intros self self' outs H.
  - injection H as <- <-. split; [constructor | congruence].
  - cbn [run_steps] in H.
    destruct (run_timestep self R_) as [[self1 res]| |] eqn:E1; cbn [bind] in H;
      try discriminate H.
    cbn [fst snd] in H.
    destruct (run_steps self1 t) as [[s2 o2]| |] eqn:E2; cbn [bind fst snd] in H;
      try discriminate H.
    injection H as <- <-.
    destruct (dict_keys_of_step _ _ _ _ E1) as (Hk & Hl).
    destruct (IH _ _ _ E2) as (Hall & Hlen).
    split; [constructor; assumption|]. intros _.
    destruct t as [|R2 t'].
    + injection E2 as <- _. exact Hl.
    + rewrite Hlen by discriminate.
      assert (Hst : state_of self self1).
      { apply (run_steps_state [R_] self self1 [res]). cbn [run_steps].
        rewrite E1. reflexivity. }
      now destruct (state_of_constants _ _ Hst) as (_ & _ & -> & _).
Qed.

(** X9.  Once the constructor has returned, a run of any length returns
    (no timestep raises, m + eps being non-zero): it yields one dict per
    recharge value, each with the three keys, and leaves every attribute of
    the object other than S and qr as the constructor set it. *)
Theorem run_after_construction percentile (pp : params) (S_initial : option R)
        (outputs : bool) (self : Topmodel_Homogenous) (Rs : list R) :
  init percentile pp S_initial outputs = Ok self ->
  pp_m pp + eps <> 0 ->
  exists self' outs,
    run_steps self Rs = Ok (self', outs) /\
    length outs = length Rs /\
    Forall (fun d => map fst d
                     = [ "baseflow"%string; "water_closure"%string;
                         "saturated_area"%string ]) outs /\
    self' = set_S (set_qr self (self_qr self')) (self_S self') /\
    length (self_qr self') = length (self_xi self).
Proof.
  intros Hi HM.
  destruct (init_inv _ _ _ _ _ Hi)
    as (xi0 & clim & _ & _ & Hxi & _ & _ & Hnz & _ & HMeq & _).
  rewrite <- HMeq in HM.
  destruct (run_steps_ok Rs self HM Hnz) as (self' & outs & Hrun & Hst & Hlen & _).
  destruct (run_steps_dicts Rs _ _ _ Hrun) as (Hk & Hq).
  exists self', outs. repeat split; try assumption.
  destruct Rs as [|R_ t]; [|apply Hq; discriminate].
  injection Hrun as <- _.
  unfold init in Hi. 
  destruct (unclamped_xi pp) as [x0| |] eqn:Hx0; cbn [bind] in Hi; try discriminate Hi.
  destruct (cutoff percentile pp x0) as [cl| |]; cbn [bind] in Hi; try discriminate Hi.
  destruct (py_truediv _ _) as [inv| |]; cbn [bind] in Hi; try discriminate Hi.
  match type of Hi with
  | bind (nanmean ?s) _ = _ => destruct (nanmean s) as [S_| |]
  end; cbn [bind] in Hi; try discriminate Hi.
  injection Hi as <-. cbn [set_S self_qr self_xi].
  unfold clamp_above. rewrite !length_map.
  rewrite unclamped_xi_cells in Hx0.
  clear - Hx0. revert x0 Hx0.
  induction (concat (pp_grid pp)) as [|c t IH]; intros x0 H; cbn [mapM] in H.
  - injection H as <-. reflexivity.
  - destruct (wetness_index _ _ _) as [y| |]; cbn [bind] in H; try discriminate H.
    destruct (mapM _ t) as [ys| |]; cbn [bind] in H; try discriminate H.
    injection H as <-. cbn [length]. f_equal. now apply IH.
Qed.

(** ** Means without the cell area *)

(** X10.  On a valid topography the cell area cancels: X is the plain mean
    of the stored index field over the active cells, and the Qr of every
    step is the plain mean of the return-flow field that the step leaves on
    the object. *)
Theorem means_are_arithmetic percentile (pp : params) (S_initial : option R)
        (outputs : bool) (self0 self : Topmodel_Homogenous) (R_ : R) :
  init percentile pp S_initial outputs = Ok self0 ->
  valid_topography pp ->
  pp_m pp + eps <> 0 ->
  state_of self0 self ->
  self_X self0
    = nansum (self_xi self0) / INR (count_active (concat (pp_grid pp))) /\
  exists fr,
    run_timestep_frame self R_ = Ok fr /\
    fr_Qr fr = nansum (self_qr (fr_self fr))
               / INR (count_active (concat (pp_grid pp))).
Proof.
  intros Hi Hv HM Hst.
  destruct (init_consistent _ _ _ _ _ Hi Hv) as (Hc & _ & Hcount).
  destruct (IZR_catchment self0 Hc) as (EZ & HA & Hn & HC).
  rewrite <- Hcount. split.
  - destruct Hc as (_ & _ & _ & HX). rewrite nansum_scale, EZ in HX.
    apply Rmult_eq_reg_r with (r := INR (count_valid (self_xi self0))
                                    * IZR (self_CellArea self0)); [|nra].
    rewrite HX. field. lra.
  - destruct (constructed_step _ _ _ _ _ _ R_ Hi HM Hst)
      as (fr & E & _ & _ & _ & Hqr & HQr & _).
    exists fr. split; [exact E|].
    rewrite HQr, Hqr, <- returnflow_sum, EZ. field. lra.
Qed.

(** ** When the constructor returns *)

(** X11.  On a valid topography with an active cell the index field is
    computed, and the constructor ends as np.percentile ends on the sample
    of its positive values: it returns an object when a cutoff is returned,
    and raises what np.percentile raises. *)
Theorem constructor_outcome percentile (pp : params) (S_initial : option R)
        (outputs : bool) :
  valid_topography pp ->
  (0 < count_active (concat (pp_grid pp)))%nat ->
  exists xi0,
    unclamped_xi pp = Ok xi0 /\
    match percentile (select_positive xi0) (pp_twi_cutoff pp) with
    | Ok _ => exists self, init percentile pp S_initial outputs = Ok self
    | Raise e => init percentile pp S_initial outputs = Raise e
    | NonFinite => init percentile pp S_initial outputs = NonFinite
    end.
Proof.
  intros Hv Hn.
  destruct (unclamped_xi_valid pp Hv) as (xi0 & Hxi0 & _).
  exists xi0. split; [exact Hxi0|].
  destruct (percentile (select_positive xi0) (pp_twi_cutoff pp)) as [clim|e|] eqn:Hp.
  - apply init_returns; [exact Hv | exact Hn |].
    intros x Hx. rewrite Hxi0 in Hx. injection Hx as <-.
    exists clim. exact Hp.
  - unfold init. rewrite Hxi0. cbn [bind]. unfold cutoff. rewrite Hp. reflexivity.
  - unfold init. rewrite Hxi0. cbn [bind]. unfold cutoff. rewrite Hp. reflexivity.
Qed.

(** ** The index of a cell *)

Lemma tan_monotone (x y : R) :
  0 <= x -> x <= y -> y < PI / 2 -> tan x <= tan y.
Proof.
  intros Hx [H|H] Hy.
  - left. apply tan_increasing; [|exact H | exact Hy].
    pose proof PI_RGT_0. lra.
  - subst y. lra.
Qed.

Lemma wetness_index_number (dx a s : R) :
  0 < dx -> 0 < a -> 0 <= s < 90 ->
  wetness_index dx (Fin a) (Fin s)
  = Ok (Fin (ln (a / dx / (tan (radians s) + eps)))) /\
  0 < a / dx / (tan (radians s) + eps).
Proof.
  intros Hdx Ha Hs.
  pose proof (radians_range s Hs) as Hr.
  pose proof (tan_nonneg _ Hr) as Ht.
  pose proof (cos_nonzero _ Hr) as Hc.
  pose proof eps_pos as He.
  assert (Hq : 0 < a / dx / (tan (radians s) + eps)).
  { apply Rdiv_lt_0_compat; [apply Rdiv_lt_0_compat|]; lra. }
  split; [|exact Hq].
  cbn [wetness_index].
  rewrite (req_false dx 0), (req_false _ 0 Hc),
    (req_false (tan (radians s) + eps) 0) by lra.
  cbn [orb]. rewrite (rlt_false _ 0), (req_false _ 0) by lra. reflexivity.
Qed.

(** X13.  For catchment cells (positive flow accumulation, slope in
    [0, 90) degrees) the wetness index is a number that does not fall when
    the flow accumulation grows or the slope falls: a cell with at least the
    flow accumulation and at most the slope of another has at least its
    index. *)
Theorem wetness_index_monotone (dx a1 a2 s1 s2 : R) :
  0 < dx ->
  0 < a1 <= a2 ->
  0 <= s2 <= s1 ->
  s1 < 90 ->
  exists x1 x2,
    wetness_index dx (Fin a1) (Fin s1) = Ok (Fin x1) /\
    wetness_index dx (Fin a2) (Fin s2) = Ok (Fin x2) /\
    x1 <= x2.
Proof.
  intros Hdx [Ha1 Ha] [Hs2 Hs] Hs1.
  destruct (wetness_index_number dx a1 s1 Hdx Ha1) as (E1 & Hq1); [lra|].
  destruct (wetness_index_number dx a2 s2 Hdx) as (E2 & Hq2); [lra | lra |].
  eexists _, _. split; [exact E1|]. split; [exact E2|].
  pose proof eps_pos as He.
  assert (Hr1 : 0 <= radians s1 < PI / 2) by (apply radians_range; lra).
  assert (Hr2 : 0 <= radians s2 < PI / 2) by (apply radians_range; lra).
  assert (Hrr : radians s2 <= radians s1).
  { unfold radians. pose proof PI_RGT_0. apply Rmult_le_compat_r; lra. }
  pose proof (tan_nonneg _ Hr2) as Ht2.
  pose proof (tan_monotone _ _ (proj1 Hr2) Hrr (proj2 Hr1)) as Ht.
  set (d1 := tan (radians s1) + eps) in *.
  set (d2 := tan (radians s2) + eps) in *.
  assert (Hd2 : 0 < d2) by (unfold d2; lra).
  assert (Hd : d2 <= d1) by (unfold d1, d2; lra).
  assert (Hdx' : 0 < / dx) by now apply Rinv_0_lt_compat.
  assert (Hle : a1 / dx / d1 <= a2 / dx / d2).
  { apply Rle_trans with (a1 / dx / d2).
    - unfold Rdiv. apply Rmult_le_compat_l; [nra|].
      apply Rinv_le_contravar; assumption.
    - unfold Rdiv. apply Rmult_le_compat_r;
        [left; now apply Rinv_0_lt_compat|]. nra. }
  destruct Hle as [Hlt|Heq]; [left; now apply ln_increasing | rewrite Heq; lra].
Qed.
(** ** Which cells saturate *)

(** X14.  On a valid topography, on an object with Qo > 0 and a depth
    parameter m >= 0, in every step the cells are ranked by their index: of
    two cells that carry an index, the one with the larger index has at most
    the local deficit and at least the return flow of the other. *)
Theorem wetter_cells_saturate_first percentile (pp : params)
        (S_initial : option R) (outputs : bool)
        (self0 self : Topmodel_Homogenous) (R_ : R) :
  init percentile pp S_initial outputs = Ok self0 ->
  valid_topography pp ->
  0 < self_Qo self0 ->
  0 <= pp_m pp ->
  state_of self0 self ->
  exists fr,
    run_timestep_frame self R_ = Ok fr /\
    forall i j xi_i xi_j,
      nth_error (self_xi self0) i = Some (Fin xi_i) ->
      nth_error (self_xi self0) j = Some (Fin xi_j) ->
      xi_i <= xi_j ->
      exists s_i s_j q_i q_j,
        nth_error (fr_s fr) i = Some (Fin s_i) /\
        nth_error (fr_s fr) j = Some (Fin s_j) /\
        nth_error (self_qr (fr_self fr)) i = Some (Fin q_i) /\
        nth_error (self_qr (fr_self fr)) j = Some (Fin q_j) /\
        s_j <= s_i /\
        q_i <= q_j.
Proof.
  intros Hi _ _ Hm Hst.
  pose proof eps_pos as He.
  assert (HM : pp_m pp + eps <> 0) by lra.
  destruct (init_inv _ _ _ _ _ Hi)
    as (xi0 & clim & _ & _ & _ & _ & _ & _ & _ & HMeq & _).
  destruct (constructed_step _ _ _ _ _ _ R_ Hi HM Hst)
    as (fr & E & _ & _ & Hs & Hqr & _).
  exists fr. split; [exact E|].
  intros i j xi_i xi_j Hxi Hxj Hle.
  rewrite Hs, Hqr. unfold local_s.
  rewrite !nth_error_map, Hxi, Hxj. cbn [option_map returnflow_cell].
  eexists _, _, _, _. repeat split; try reflexivity.
  - rewrite HMeq. nra.
  - apply Rle_max_compat_l. rewrite HMeq. nra.
Qed.

(** ** The shipped parameters *)

Lemma ptopmodel_scalars :
  py_scalars ptopmodel
  = [ ("dt"%string, 86400); ("m"%string, 25 / 1000); ("ko"%string, 1 / 1000);
      ("twi_cutoff"%string, 995 / 10); ("so"%string, 5 / 100) ].
Proof.
  unfold py_scalars, ptopmodel. cbn [py_items scalars_of].
  repeat (apply f_equal2; [apply f_equal; unfold Q2R; cbn; lra|]). reflexivity.
Qed.

(** X12.  The dict of ptopmodel() supplies every scalar the constructor
    reads, with a percentile in [0, 100], ko > 0, dt > 0 and m + eps > 0;
    on any valid topography the object built from it (without S_initial) has
    Qo >= 0 and an initial deficit >= 0, and over the states S >= 0 its
    baseflow never grows with the state. *)
Theorem shipped_parameters percentile (grid : list (list cell)) (pp : params)
        (outputs : bool) (self : Topmodel_Homogenous) :
  with_topography (py_scalars ptopmodel) grid = Some pp ->
  init percentile pp None outputs = Ok self ->
  valid_topography pp ->
  pp_grid pp = grid /\
  0 <= pp_twi_cutoff pp <= 100 /\
  0 < pp_ko pp /\
  0 < pp_dt pp /\
  0 < self_M self + eps /\
  0 <= self_Qo self /\
  0 <= self_S self /\
  forall S1 S2, 0 <= S1 <= S2 ->
    exists Qb1 Qb2,
      subsurfaceflow (set_S self S1) = Ok Qb1 /\
      subsurfaceflow (set_S self S2) = Ok Qb2 /\
      Qb2 <= Qb1.
Proof.
  intros Hpp Hi Hv. rewrite ptopmodel_scalars in Hpp. cbn in Hpp.
  injection Hpp as <-.
  pose proof eps_pos as He.
  destruct (init_inv _ _ _ _ _ Hi)
    as (xi0 & clim & _ & _ & _ & _ & _ & _ & _ & HMeq & _ & _ & HS).
  cbn [pp_m] in HMeq.
  assert (HQ : 0 <= self_Qo self)
    by (apply (init_Qo_nonneg _ _ _ _ _ Hi); cbn; lra).
  assert (HM : 0 < self_M self + eps) by (rewrite HMeq; lra).
  pose proof (nanmean_clamp_nonneg _ _ HS) as H0.
  split; [reflexivity|]. split; [cbn; lra|]. split; [cbn; lra|].
  split; [cbn; lra|]. split; [exact HM|].
  split; [exact HQ|]. split; [exact H0|].
  intros S1 S2 [_ HS12]. eexists _, _. split; [|split].
  - apply (subsurfaceflow_ok (set_S self S1)). cbn. lra.
  - apply (subsurfaceflow_ok (set_S self S2)). cbn. lra.
  - cbn [set_S self_S self_Qo self_M].
    apply Rmult_le_compat_l; [exact HQ|].
    destruct HS12 as [HS12|HS12]; [|subst S2; apply Rle_refl].
    left. apply exp_increasing.
    apply Rmult_lt_compat_r; [now apply Rinv_0_lt_compat | lra].
Qed.

(** ** The further properties at the worked inputs *)

Lemma example_rates : 0 <= pp_ko example_pp /\ 0 <= pp_dt example_pp.
Proof. cbn. lra. Qed.

Lemma example_Qo_pos : 0 < self_Qo example_self.
Proof. cbn. apply Rmult_lt_0_compat; [lra | apply exp_pos]. Qed.

Lemma example_clim_x1 : example_x1 <= example_clim.
Proof.
  pose proof ln_2_pos. pose proof example_x2_x1. unfold example_clim. lra.
Qed.

(** On the worked object no local deficit of a state S >= 0.05 is
    negative. *)
Lemma example_local_s_dry (Smean : R) :
  5 / 100 <= Smean -> Forall nan_or_nonneg (local_s example_self Smean).
Proof.
  intros HS.
  pose proof ln_2_pos as H1. pose proof ln_2_lt_1 as H2.
  pose proof example_x2_x1 as H3.
  unfold local_s.
  cbn [self_xi self_M self_X example_self map fadd fsub fmul lift2].
  repeat apply Forall_cons; [| | |apply Forall_nil]; cbn [nan_or_nonneg];
    try exact I; unfold example_clim; lra.
Qed.

(** The step of the worked object without recharge leaves no local deficit
    negative. *)
Lemma example_dry_step (fr : frame) :
  run_timestep_frame example_self 0 = Ok fr -> Forall nan_or_nonneg (fr_s fr).
Proof.
  intros H.
  frame_eq example_self 0 example_depth example_area E.
  rewrite E in H. injection H as <-. cbn [fr_s].
  apply example_local_s_dry.
  assert (HQ : 0 < self_Qo example_self)
    by (cbn; apply Rmult_lt_0_compat; [lra | apply exp_pos]).
  pose proof (exp_pos (- self_S example_self / (self_M example_self + eps))) as He.
  change (self_S example_self) with (5 / 100) in *. clear E. cbn [self_Qo self_M example_self] in *. nra.
Qed.

Lemma example_depth_pos : 0 < pp_m example_pp + eps.
Proof. pose proof eps_pos. cbn. lra. Qed.

Lemma example_active : (0 < count_active (concat (pp_grid example_pp)))%nat.
Proof. rewrite example_count_active. lia. Qed.

Lemma baseflow_bounds_witness :
  init (np_percentile (Ok NaN)) example_pp None false = Ok example_self /\
  valid_topography example_pp /\
  0 <= pp_ko example_pp /\
  0 <= pp_dt example_pp /\
  0 < pp_m example_pp + eps /\
  0 <= 1 / 10 /\
  0 <= self_Qo example_self /\
  subsurfaceflow (set_S example_self 0) = Ok (self_Qo example_self) /\
  exists Qb,
    subsurfaceflow (set_S example_self (1 / 10)) = Ok Qb /\
    0 <= Qb <= self_Qo example_self.
Proof.
  assert (HS : 0 <= 1 / 10) by lra.
  split; [exact example_init|]. split; [exact example_valid|].
  split; [exact (proj1 example_rates)|].
  split; [exact (proj2 example_rates)|]. split; [exact example_depth_pos|].
  split; [exact HS|].
  exact (baseflow_bounds _ _ _ _ _ (1 / 10) example_init example_valid
           (proj1 example_rates) (proj2 example_rates) example_depth_pos HS).
Defined.

Lemma returnflow_nonnegative_witness :
  init (np_percentile (Ok NaN)) example_pp None false = Ok example_self /\
  valid_topography example_pp /\
  0 < self_Qo example_self /\
  pp_m example_pp + eps <> 0 /\
  state_of example_self example_self /\
  exists fr,
    run_timestep_frame example_self (1 / 1000) = Ok fr /\
    0 <= fr_Qr fr /\
    fr_S_prov fr <= self_S (fr_self fr).
Proof.
  split; [exact example_init|]. split; [exact example_valid|].
  split; [exact example_Qo_pos|]. split; [exact example_depth|].
  split; [exact (state_of_refl example_self)|].
  destruct (returnflow_nonnegative _ _ _ _ _ example_self (1 / 1000) example_init
              example_valid example_Qo_pos example_depth
              (state_of_refl example_self))
    as (fr & H1 & _ & _ & H4 & H5).
  exists fr. repeat split; assumption.
Defined.

Lemma no_recharge_no_decrease_witness :
  init (np_percentile (Ok NaN)) example_pp None false = Ok example_self /\
  valid_topography example_pp /\
  0 < self_Qo example_self /\
  pp_m example_pp + eps <> 0 /\
  state_of example_self example_self /\
  0 <= 0 /\
  exists fr,
    run_timestep_frame example_self 0 = Ok fr /\
    self_S example_self <= self_S (fr_self fr).
Proof.
  split; [exact example_init|]. split; [exact example_valid|].
  split; [exact example_Qo_pos|]. split; [exact example_depth|].
  split; [exact (state_of_refl example_self)|]. split; [exact (Rle_refl 0)|].
  destruct (no_recharge_no_decrease _ _ _ _ _ example_self 0 example_init
              example_valid example_Qo_pos example_depth
              (state_of_refl example_self) (Rle_refl 0))
    as (fr & H1 & _ & _ & H4).
  exists fr. split; assumption.
Defined.

Lemma recharge_monotone_witness :
  init (np_percentile (Ok NaN)) example_pp None false = Ok example_self /\
  valid_topography example_pp /\
  0 < self_Qo example_self /\
  pp_m example_pp + eps <> 0 /\
  state_of example_self example_self /\
  0 <= 1 /\
  exists fr1 fr2,
    run_timestep_frame example_self 0 = Ok fr1 /\
    run_timestep_frame example_self 1 = Ok fr2 /\
    fr_Qr fr1 <= fr_Qr fr2 /\
    fr_fsat fr1 <= fr_fsat fr2.
Proof.
  split; [exact example_init|]. split; [exact example_valid|].
  split; [exact example_Qo_pos|].
  split; [exact example_depth|]. split; [exact (state_of_refl example_self)|].
  split; [exact Rle_0_1|].
  destruct (recharge_monotone _ _ _ _ _ example_self 0 1 example_init example_valid
              example_Qo_pos example_depth (state_of_refl example_self) Rle_0_1)
    as (fr1 & fr2 & H1 & H2 & _ & H4 & H5).
  exists fr1, fr2. repeat split; assumption.
Defined.

Lemma unsaturated_step_witness :
  init (np_percentile (Ok NaN)) example_pp None false = Ok example_self /\
  valid_topography example_pp /\
  0 < self_Qo example_self /\
  pp_m example_pp + eps <> 0 /\
  state_of example_self example_self /\
  exists fr,
    run_timestep_frame example_self 0 = Ok fr /\
    Forall nan_or_nonneg (fr_s fr) /\
    self_qr (fr_self fr) = [Fin 0; Fin 0; NaN] /\
    fr_Qr fr = 0 /\
    self_S (fr_self fr) = self_S example_self + fr_Qb fr - 0.
Proof.
  split; [exact example_init|]. split; [exact example_valid|].
  split; [exact example_Qo_pos|]. split; [exact example_depth|].
  split; [exact (state_of_refl example_self)|].
  destruct (unsaturated_step _ _ _ _ _ example_self 0 example_init example_valid
              example_Qo_pos example_depth (state_of_refl example_self))
    as (fr & H1 & H2).
  exists fr. split; [exact H1|].
  pose proof (example_dry_step fr H1) as Hdry.
  split; [exact Hdry|]. exact (H2 Hdry).
Defined.

Lemma initial_deficit_regularised_witness :
  init (np_percentile (Ok NaN)) example_pp None false = Ok example_self /\
  valid_topography example_pp /\
  exists v,
    nanmean (local_s example_self (effective_S_initial example_pp None)) = Ok v /\
    v <= self_S example_self /\
    Forall nan_or_nonneg (local_s example_self (effective_S_initial example_pp None)) /\
    self_S example_self = v.
Proof.
  split; [exact example_init|]. split; [exact example_valid|].
  destruct (initial_deficit_regularised _ _ _ _ _ example_init example_valid)
    as (v & H1 & H2 & H3).
  exists v. split; [exact H1|]. split; [exact H2|].
  assert (Hdry : Forall nan_or_nonneg
                   (local_s example_self (effective_S_initial example_pp None)))
    by (apply example_local_s_dry; cbn; lra).
  split; [exact Hdry | exact (H3 Hdry)].
Defined.

Lemma nonzero_S_initial_overrides_witness :
  1 <> 0 /\
  init (np_percentile (Ok NaN)) example_pp (Some 1) false
  = init (np_percentile (Ok NaN)) (set_so example_pp 1) None false.
Proof.
  split; [exact R1_neq_R0|].
  exact (proj2 (nonzero_S_initial_overrides (np_percentile (Ok NaN)) example_pp 1
                  false R1_neq_R0)).
Defined.

Lemma run_after_construction_witness :
  init (np_percentile (Ok NaN)) example_pp None false = Ok example_self /\
  pp_m example_pp + eps <> 0 /\
  exists self' outs,
    run_steps example_self [0; 1 / 100] = Ok (self', outs) /\
    length outs = 2%nat /\
    self' = set_S (set_qr example_self (self_qr self')) (self_S self').
Proof.
  split; [exact example_init|]. split; [exact example_depth|].
  destruct (run_after_construction _ _ _ _ _ [0; 1 / 100] example_init example_depth)
    as (self' & outs & H1 & H2 & _ & H4 & _).
  exists self', outs. repeat split; assumption.
Defined.

Lemma means_are_arithmetic_witness :
  init (np_percentile (Ok NaN)) example_pp None false = Ok example_self /\
  valid_topography example_pp /\
  pp_m example_pp + eps <> 0 /\
  state_of example_self example_self /\
  self_X example_self
    = nansum (self_xi example_self)
      / INR (count_active (concat (pp_grid example_pp))).
Proof.
  split; [exact example_init|]. split; [exact example_valid|].
  split; [exact example_depth|]. split; [exact (state_of_refl example_self)|].
  exact (proj1 (means_are_arithmetic _ _ _ _ _ example_self 0 example_init
                  example_valid example_depth (state_of_refl example_self))).
Defined.

Lemma constructor_outcome_witness :
  valid_topography example_pp /\
  (0 < count_active (concat (pp_grid example_pp)))%nat /\
  exists xi0,
    unclamped_xi example_pp = Ok xi0 /\
    match np_percentile (Raise "ValueError") (select_positive xi0)
                        (pp_twi_cutoff example_pp) with
    | Ok _ => exists self,
        init (np_percentile (Raise "ValueError")) example_pp None false = Ok self
    | Raise e => init (np_percentile (Raise "ValueError")) example_pp None false = Raise e
    | NonFinite => init (np_percentile (Raise "ValueError")) example_pp None false = NonFinite
    end.
Proof.
  split; [exact example_valid|]. split; [exact example_active|].
  exact (constructor_outcome (np_percentile (Raise "ValueError")) example_pp None false
           example_valid example_active).
Defined.

Lemma shipped_parameters_witness :
  exists pp self,
    with_topography (py_scalars ptopmodel) (pp_grid example_pp) = Some pp /\
    init (np_percentile (Ok NaN)) pp None false = Ok self /\
    valid_topography pp /\
    0 < self_M self + eps /\
    0 <= self_Qo self /\
    0 <= self_S self /\
    0 <= 0 <= 1 /\
    exists Qb1 Qb2,
      subsurfaceflow (set_S self 0) = Ok Qb1 /\
      subsurfaceflow (set_S self 1) = Ok Qb2 /\
      Qb2 <= Qb1.
Proof.
  assert (Hpp : exists pp,
             with_topography (py_scalars ptopmodel) (pp_grid example_pp) = Some pp
             /\ pp_grid pp = pp_grid example_pp
             /\ 0 <= pp_twi_cutoff pp <= 100).
  { rewrite ptopmodel_scalars. eexists. split; [reflexivity|].
    split; [reflexivity|]. cbn. lra. }
  destruct Hpp as (pp & Hpp & Hg & Hq).
  assert (Hv : valid_topography pp)
    by (unfold valid_topography; rewrite Hg; exact example_valid).
  destruct (init_returns (np_percentile (Ok NaN)) pp None false Hv) as (self & Hi).
  - rewrite Hg. exact example_active.
  - intros xi0 _. now apply np_percentile_returns.
  - exists pp, self. split; [exact Hpp|]. split; [exact Hi|]. split; [exact Hv|].
    destruct (shipped_parameters _ _ _ _ _ Hpp Hi Hv)
      as (_ & _ & _ & _ & H4 & H5 & H6 & H7).
    assert (H01 : 0 <= 0 <= 1) by lra.
    split; [exact H4|]. split; [exact H5|]. split; [exact H6|].
    split; [exact H01 | exact (H7 0 1 H01)].
Defined.

Lemma wetness_index_monotone_witness :
  0 < 4 /\
  0 < 4 <= 8 /\
  0 <= 0 <= 0 /\
  0 < 90 /\
  exists x1 x2,
    wetness_index 4 (Fin 4) (Fin 0) = Ok (Fin x1) /\
    wetness_index 4 (Fin 8) (Fin 0) = Ok (Fin x2) /\
    x1 <= x2.
Proof.
  assert (H1 : 0 < 4) by lra. assert (H2 : 0 < 4 <= 8) by lra.
  assert (H3 : 0 <= 0 <= 0) by lra. assert (H4 : 0 < 90) by lra.
  split; [exact H1|]. split; [exact H2|]. split; [exact H3|]. split; [exact H4|].
  destruct (wetness_index_monotone 4 4 8 0 0 H1 H2 H3 H4)
    as (x1 & x2 & E1 & E2 & Hle).
  exists x1, x2. repeat split; assumption.
Defined.

Lemma wetter_cells_saturate_first_witness :
  init (np_percentile (Ok NaN)) example_pp None false = Ok example_self /\
  valid_topography example_pp /\
  0 < self_Qo example_self /\
  0 <= pp_m example_pp /\
  state_of example_self example_self /\
  example_x1 <= example_clim /\
  exists fr s_i s_j q_i q_j,
    run_timestep_frame example_self 0 = Ok fr /\
    nth_error (fr_s fr) 0 = Some (Fin s_i) /\
    nth_error (fr_s fr) 1 = Some (Fin s_j) /\
    nth_error (self_qr (fr_self fr)) 0 = Some (Fin q_i) /\
    nth_error (self_qr (fr_self fr)) 1 = Some (Fin q_j) /\
    s_j <= s_i /\
    q_i <= q_j.
Proof.
  assert (Hm : 0 <= pp_m example_pp) by (cbn; lra).
  split; [exact example_init|]. split; [exact example_valid|].
  split; [exact example_Qo_pos|]. split; [exact Hm|].
  split; [exact (state_of_refl example_self)|]. split; [exact example_clim_x1|].
  destruct (wetter_cells_saturate_first _ _ _ _ _ example_self 0 example_init
              example_valid example_Qo_pos Hm (state_of_refl example_self))
    as (fr & H1 & H2).
  destruct (H2 0%nat 1%nat example_x1 example_clim eq_refl eq_refl example_clim_x1)
    as (s_i & s_j & q_i & q_j & H).
  exists fr, s_i, s_j, q_i, q_j. split; [exact H1 | exact H].
Defined.

(** ** Return flow and saturation *)

Lemma count_saturated_zero (s : list float) :
  count_saturated s = O -> Forall nan_or_nonneg s.
Proof.
  unfold count_saturated.
  induction s as [|[|x] t IH]; cbn [filter fle]; intros H.
  - constructor.
  - constructor; [exact I | now apply IH].
  - unfold rle in H. destruct (Rle_dec x 0); cbn [length] in H; [discriminate|].
    constructor; [cbn; lra | now apply IH].
Qed.

(** X15.  Return flow needs a saturated cell: on every constructed object,
    a step whose saturated fraction is 0 has Qr = 0, and a step with Qr > 0
    has a positive saturated fraction. *)
Theorem returnflow_needs_saturation percentile (pp : params)
        (S_initial : option R) (outputs : bool)
        (self0 self : Topmodel_Homogenous) (R_ : R) :
  init percentile pp S_initial outputs = Ok self0 ->
  pp_m pp + eps <> 0 ->
  state_of self0 self ->
  exists fr,
    run_timestep_frame self R_ = Ok fr /\
    0 <= fr_fsat fr /\
    (fr_fsat fr = 0 -> fr_Qr fr = 0) /\
    (0 < fr_Qr fr -> 0 < fr_fsat fr).
Proof.
  intros Hi HM Hst.
  destruct (init_areas_positive _ _ _ _ _ Hi) as (HA & HC).
  destruct (constructed_step _ _ _ _ _ _ R_ Hi HM Hst)
    as (fr & E & _ & _ & Hs & _ & HQr & _ & Hf & _).
  exists fr. split; [exact E|].
  assert (Hinv : 0 < / IZR (self_CatchmentArea self0)) by now apply Rinv_0_lt_compat.
  pose proof (pos_INR (count_saturated (fr_s fr))) as Hk.
  assert (Hf' : fr_fsat fr = INR (count_saturated (fr_s fr))
                             * IZR (self_CellArea self0)
                             * / IZR (self_CatchmentArea self0))
    by (rewrite Hf, mult_IZR, <- INR_IZR_INZ; reflexivity).
  assert (H0 : 0 <= fr_fsat fr).
  { rewrite Hf'. apply Rmult_le_pos; [apply Rmult_le_pos|]; lra. }
  assert (Hz : fr_fsat fr = 0 -> fr_Qr fr = 0).
  { intros Hz. rewrite Hf' in Hz.
    assert (Hk0 : INR (count_saturated (fr_s fr)) = 0).
    { apply Rmult_integral in Hz. destruct Hz as [Hz|Hz]; [|lra].
      apply Rmult_integral in Hz. destruct Hz as [Hz|Hz]; [exact Hz | lra]. }
    change 0 with (INR 0) in Hk0. apply INR_eq in Hk0.
    apply count_saturated_zero in Hk0. rewrite Hs in Hk0.
    destruct (returnflow_none_saturated _ _ Hk0) as (HT & _).
    rewrite HQr, HT. unfold Rdiv. ring. }
  split; [exact H0|]. split; [exact Hz|].
  intros Hpos. destruct H0 as [H0|H0]; [exact H0|].
  symmetry in H0. apply Hz in H0. lra.
Qed.

(** ** The cutoff and X *)




Lemma returnflow_needs_saturation_witness :
  init (np_percentile (Ok NaN)) example_pp None false = Ok example_self /\
  pp_m example_pp + eps <> 0 /\
  state_of example_self example_self /\
  exists fr,
    run_timestep_frame example_self 0 = Ok fr /\
    (fr_fsat fr = 0 -> fr_Qr fr = 0).
Proof.
  split; [exact example_init|]. split; [exact example_depth|].
  split; [exact (state_of_refl example_self)|].
  destruct (returnflow_needs_saturation _ _ _ _ _ example_self 0 example_init
              example_depth (state_of_refl example_self))
    as (fr & H1 & _ & H3 & _).
  exists fr. split; assumption.
Defined.


(** * parameters.py *)

Lemma distinctb_NoDup (l : list string) : distinctb l = true -> NoDup l.
Proof.
  induction l as [|x t IH]; cbn [distinctb]; intros H; [constructor|].
  apply andb_true_iff in H. destruct H as (Hx & Ht).
  constructor; [|now apply IH].
  intros Hin. apply negb_true_iff in Hx.
  assert (existsb (String.eqb x) t = true); [|congruence].
  apply existsb_exists. exists x. split; [exact Hin | apply String.eqb_refl].
Qed.

Lemma existsb_In (x : string) (l : list string) :
  existsb (String.eqb x) l = true -> In x l.
Proof.
  intros H. apply existsb_exists in H. destruct H as (y & Hin & E).
  apply String.eqb_eq in E. now subst y.
Qed.

(** X17.  Whatever the folder, the clock and the platform, the output
    variables listed in pgen['variables'] have pairwise distinct names, and
    every key of the dict that run_timestep returns, prefixed with 'top_',
    is one of them. *)
Theorem output_variables (stamp : string) (path_str : string -> string)
        (folder : string) :
  NoDup (variable_names (pgen stamp path_str folder)) /\
  forall self R_ self' res,
    run_timestep self R_ = Ok (self', res) ->
    Forall (fun k => In ("top_" ++ k)%string
                        (variable_names (pgen stamp path_str folder)))
           (map fst res).
Proof.
  split; [apply distinctb_NoDup; vm_compute; reflexivity|].
  intros self R_ self' res H.
  destruct (dict_keys_of_step _ _ _ _ H) as (-> & _).
  repeat (apply Forall_cons; [apply existsb_In; vm_compute; reflexivity|]).
  apply Forall_nil.
Qed.

Lemma append_left_cancel (a x y : string) :
  (a ++ x)%string = (a ++ y)%string -> x = y.
Proof. induction a as [|c a IH]; cbn; intros H; [exact H | injection H as H; auto]. Qed.

Lemma length_append (x y : string) :
  String.length (x ++ y) = (String.length x + String.length y)%nat.
Proof. induction x as [|c x IH]; cbn; [reflexivity | now rewrite IH]. Qed.

Lemma append_right_cancel (s x y : string) :
  (x ++ s)%string = (y ++ s)%string -> x = y.
Proof.
  revert y. induction x as [|c x IH]; intros [|d y] H; cbn in H.
  - reflexivity.
  - apply (f_equal String.length) in H. cbn in H. rewrite length_append in H. lia.
  - apply (f_equal String.length) in H. cbn in H. rewrite length_append in H. lia.
  - injection H as -> H. f_equal. now apply IH.
Qed.

(** X18.  The result file of parameters(folder) is named folder, an
    underscore, the minute stamp of the call and '.nc'; two calls for one
    folder get the same name only when their stamps are the same. *)
Theorem result_file_name (stamp1 stamp2 : string) (path_str : string -> string)
        (folder : string) :
  py_getitem "ncf_file" (pgen stamp1 path_str folder)
  = Some (PyStr (((folder ++ "_") ++ stamp1) ++ ".nc")) /\
  (py_getitem "ncf_file" (pgen stamp1 path_str folder)
   = py_getitem "ncf_file" (pgen stamp2 path_str folder) <-> stamp1 = stamp2).
Proof.
  split; [reflexivity|]. split.
  - intros H. cbn in H. injection H as H.
    apply append_right_cancel in H. now apply append_left_cancel in H.
  - intros ->. reflexivity.
Qed.

(** A comparison of two rational literals, decided by computation. *)
Ltac q_fact := vm_compute; first [ reflexivity | discriminate ].

(** X19.  In every profile of soilprofiles() the columns ThetaS, ThetaR,
    alpha, n and saturated_conductivity have one entry per layer of z; the
    layer bottoms z are negative and strictly decreasing; and in each layer
    ThetaR < ThetaS and the conductivity is positive. *)
Theorem soil_profile_layers :
  Forall (fun kv =>
            exists z ts tr al n ks,
              profile_columns (snd kv) = Some (z, ts, tr, al, n, ks) /\
              z <> [] /\
              length ts = length z /\ length tr = length z /\
              length al = length z /\ length n = length z /\
              length ks = length z /\
              strictly_decreasing z /\
              Forall (fun x => (x < 0)%Q) z /\
              Forall2 Qlt tr ts /\
              Forall (fun k => (0 < k)%Q) ks)
         (py_items soilprofiles).
Proof.
  unfold soilprofiles. cbn [py_items].
  repeat apply Forall_cons; [ | | | | | apply Forall_nil ];
    (do 6 eexists; split; [vm_compute; reflexivity|];
     split; [discriminate|];
     do 5 (split; [reflexivity|]);
     split; [cbn [strictly_decreasing]; repeat split; q_fact|];
     split; [repeat (apply Forall_cons; [q_fact|]); apply Forall_nil|];
     split; [repeat (apply Forall2_cons; [q_fact|]); apply Forall2_nil|];
     repeat (apply Forall_cons; [q_fact|]); apply Forall_nil).
Qed.

(** X20.  For every soil type of rootproperties() the moisture parameters
    are ordered 0 <= root_wr < root_wp < root_fc < root_poros < 1, and
    root_ksat is positive. *)
Theorem root_zone_ordering :
  Forall (fun kv =>
            exists wr wp fc poros ksat,
              py_float_at "root_wr" (snd kv) = Some wr /\
              py_float_at "root_wp" (snd kv) = Some wp /\
              py_float_at "root_fc" (snd kv) = Some fc /\
              py_float_at "root_poros" (snd kv) = Some poros /\
              py_float_at "root_ksat" (snd kv) = Some ksat /\
              (0 <= wr)%Q /\ (wr < wp)%Q /\ (wp < fc)%Q /\ (fc < poros)%Q /\
              (poros < 1)%Q /\ (0 < ksat)%Q)
         (py_items rootproperties).
Proof.
  unfold rootproperties. cbn [py_items].
  repeat apply Forall_cons; [ | | | | | apply Forall_nil ];
    (do 5 eexists; do 5 (split; [vm_compute; reflexivity|]);
     repeat split; q_fact).
Qed.

(** X21.  rootproperties() and soilprofiles() describe the same five soil
    types, in the same order and under the same soil_id, 1.0 to 5.0. *)
Theorem soil_ids_agree :
  map fst (py_items rootproperties) = map fst (py_items soilprofiles) /\
  map (fun kv => py_float_at "soil_id" (snd kv)) (py_items rootproperties)
  = map (fun kv => py_float_at "soil_id" (snd kv)) (py_items soilprofiles) /\
  map (fun kv => py_float_at "soil_id" (snd kv)) (py_items soilprofiles)
  = [Some 1.0; Some 2.0; Some 3.0; Some 4.0; Some 5.0]%Q.
Proof. repeat split. Qed.

(** X22.  The default soil of parameters() is the MediumTextured type:
    psp['soil_id'] is its soil_id, and every key that psp shares with
    rootproperties()['MediumTextured'] (soil_id, root_fc, root_poros,
    root_wp, root_ksat, root_beta) has the same value in both. *)
Theorem default_soil_is_medium :
  exists medium,
    py_getitem "MediumTextured" rootproperties = Some medium /\
    py_getitem "soil_id" psp = py_getitem "soil_id" medium /\
    map fst (filter (fun kv => match py_getitem (fst kv) medium with
                               | Some _ => true
                               | None => false
                               end) (py_items psp))
    = [ "soil_id"; "root_fc"; "root_poros"; "root_wp"; "root_ksat";
        "root_beta" ]%string /\
    Forall (fun kv => match py_getitem (fst kv) medium with
                      | Some v => v = snd kv
                      | None => True
                      end) (py_items psp).
Proof.
  eexists. split; [reflexivity|]. split; [reflexivity|]. split; [reflexivity|].
  unfold psp. cbn [py_items].
  repeat (apply Forall_cons; [vm_compute; first [reflexivity | exact I]|]).
  apply Forall_nil.
Qed.

(** X23.  The four topsoil types of topsoil() carry the ids 1 to 4 in
    order, a positive depth, and moisture parameters ordered
    0 < org_rw < org_fc < org_poros < 1. *)
Theorem topsoil_ordering :
  map (fun kv => py_getitem "topsoil_id" (snd kv)) (py_items topsoil)
  = [Some (PyInt 1); Some (PyInt 2); Some (PyInt 3); Some (PyInt 4)] /\
  Forall (fun kv =>
            exists depth rw fc poros,
              py_float_at "org_depth" (snd kv) = Some depth /\
              py_float_at "org_rw" (snd kv) = Some rw /\
              py_float_at "org_fc" (snd kv) = Some fc /\
              py_float_at "org_poros" (snd kv) = Some poros /\
              (0 < depth)%Q /\ (0 < rw)%Q /\ (rw < fc)%Q /\ (fc < poros)%Q /\
              (poros < 1)%Q)
         (py_items topsoil).
Proof.
  split; [reflexivity|].
  unfold topsoil. cbn [py_items].
  repeat apply Forall_cons; [ | | | | apply Forall_nil ];
    (do 4 eexists; do 4 (split; [vm_compute; reflexivity|]);
     repeat split; q_fact).
Qed.
